(** * mysql_backup: the daily MySQL backup script (src/main.py)

    A shallow embedding of [BackupManager] and of the script's entry point.
    The file system directory [local_backup_dir], the OSS bucket, the clock,
    the [mysqldump] process and the log are the script's outside world: they
    are modelled as an explicit [world] that every method transforms, and an
    [Env] that fixes what the outside world answers during one run (exit code
    of the dump, I/O errors, upload errors, the clock readings).  Python
    exceptions are the [Raise] outcome of a small state-and-exception monad. *)

From stdpp Require Import gmap strings list fin_maps.
From Stdlib Require Import ZArith Lia Ascii String.

Local Open Scope string_scope.
Local Open Scope list_scope.

(** ** Python [str] operations used by the script

    File names and object keys are ASCII strings. *)
Module Text.

(** [s[n:]] *)
Fixpoint skip (n : nat) (s : string) : string :=
  match n, s with
  | O, _ => s
  | S k, String _ t => skip k t
  | S _, EmptyString => EmptyString
  end.

(** [s[:n]] *)
Fixpoint take (n : nat) (s : string) : string :=
  match n, s with
  | O, _ => EmptyString
  | S k, String a t => String a (take k t)
  | S _, EmptyString => EmptyString
  end.

(** [s.startswith(p)] *)
Fixpoint startswith (p s : string) : bool :=
  match p, s with
  | EmptyString, _ => true
  | String a p', String b s' => if Ascii.eqb a b then startswith p' s' else false
  | String _ _, EmptyString => false
  end.

(** [s.endswith(suf)] *)
Definition endswith (s suf : string) : bool :=
  (String.length suf <=? String.length s)%nat
  && String.eqb (skip (String.length s - String.length suf) s) suf.

(** [c in s] *)
Fixpoint contains (c : ascii) (s : string) : bool :=
  match s with
  | EmptyString => false
  | String a t => Ascii.eqb a c || contains c t
  end.

(** [s.split(c)[-1]]: the text after the last [c], all of [s] when [c]
    does not occur.  [cur] is the text after the last [c] seen so far. *)
Fixpoint after_last_from (c : ascii) (s cur : string) : string :=
  match s with
  | EmptyString => cur
  | String a t =>
      if Ascii.eqb a c then after_last_from c t t else after_last_from c t cur
  end.

Definition split_last (c : ascii) (s : string) : string := after_last_from c s s.

(** [s.replace(pat, "")] for a non-empty [pat]: occurrences are removed
    from left to right, without overlap.  [pending] counts the characters
    of the occurrence under removal that are still to be dropped. *)
Fixpoint remove_from (pat s : string) (pending : nat) : string :=
  match s with
  | EmptyString => EmptyString
  | String a t =>
      match pending with
      | S k => remove_from pat t k
      | O =>
          if startswith pat s
          then remove_from pat t (String.length pat - 1)
          else String a (remove_from pat t 0)
      end
  end.

Definition remove_all (pat s : string) : string := remove_from pat s 0.

(** [s.rfind(c)]: [idx] is the index of the head of [s], [found] the last
    hit so far. *)
Fixpoint rfind_from (c : ascii) (s : string) (idx : nat) (found : option nat)
  : option nat :=
  match s with
  | EmptyString => found
  | String a t =>
      rfind_from c t (S idx) (if Ascii.eqb a c then Some idx else found)
  end.

Definition rfind (c : ascii) (s : string) : option nat := rfind_from c s 0 None.

(** [PurePath(name).suffix]: the last dot and what follows, unless the dot
    is the first or the last character. *)
Definition suffix (name : string) : string :=
  match rfind "." name with
  | Some i =>
      if (0 <? i)%nat && (i <? String.length name - 1)%nat
      then skip i name else EmptyString
  | None => EmptyString
  end.

(** [PurePath(name).with_suffix(suf)] on the final path component. *)
Definition with_suffix (name suf : string) : string :=
  take (String.length name - String.length (suffix name)) name +:+ suf.

(** [Path(key).name] for a key that does not end in a slash: the final
    component. *)
Definition path_name (key : string) : string := split_last "/" key.

End Text.

(** ** Calendar: [datetime] as the script uses it *)
Module Calendar.
Local Open Scope Z_scope.

Record date := mkDate { year : Z; month : Z; day : Z }.

(** A naive [datetime]: a calendar date and the time of day, counted in
    microseconds since midnight (hour, minute, second and microsecond of
    Python's value folded into one number, which orders them the same). *)
Record datetime := mkDatetime { dt_date : date; dt_micro : Z }.

Definition MINYEAR : Z := 1.
Definition MAXYEAR : Z := 9999.
Definition MAXORDINAL : Z := 3652059.

Definition is_leap (y : Z) : bool :=
  (y mod 4 =? 0) && (negb (y mod 100 =? 0) || (y mod 400 =? 0)).

Definition days_before_year (y : Z) : Z :=
  let p := y - 1 in p * 365 + p / 4 - p / 100 + p / 400.

Definition DAYS_IN_MONTH (m : Z) : Z :=
  match m with
  | 1 => 31 | 2 => 28 | 3 => 31 | 4 => 30 | 5 => 31 | 6 => 30
  | 7 => 31 | 8 => 31 | 9 => 30 | 10 => 31 | 11 => 30 | 12 => 31
  | _ => -1
  end.

Definition DAYS_BEFORE_MONTH (m : Z) : Z :=
  match m with
  | 1 => 0 | 2 => 31 | 3 => 59 | 4 => 90 | 5 => 120 | 6 => 151
  | 7 => 181 | 8 => 212 | 9 => 243 | 10 => 273 | 11 => 304 | 12 => 334
  | _ => -1
  end.

Definition days_in_month (y m : Z) : Z :=
  if (m =? 2) && is_leap y then 29 else DAYS_IN_MONTH m.

Definition days_before_month (y m : Z) : Z :=
  DAYS_BEFORE_MONTH m + (if (2 <? m) && is_leap y then 1 else 0).

(** [date.toordinal()] : 0001-01-01 is day 1. *)
Definition toordinal (d : date) : Z :=
  days_before_year (year d) + days_before_month (year d) (month d) + day d.

(** The check [datetime(...)] makes on its date fields. *)
Definition valid_date (d : date) : bool :=
  (MINYEAR <=? year d) && (year d <=? MAXYEAR)
  && (1 <=? month d) && (month d <=? 12)
  && (1 <=? day d) && (day d <=? days_in_month (year d) (month d)).

(** A point in time in the form comparisons need: ordinal day and
    microsecond of the day.  Python compares naive datetimes field by
    field, which is the lexicographic order of this pair. *)
Definition stamp : Type := Z * Z.

(** What [strptime] returns: the date at 00:00:00.000000. *)
Definition midnight (d : date) : stamp := (toordinal d, 0).

(** [a < b] on datetimes. *)
Definition stamp_lt (a b : stamp) : bool :=
  (fst a <? fst b) || ((fst a =? fst b) && (snd a <? snd b)).

(** [t - timedelta(days=k)]: the time of day is kept; [None] stands for
    the [OverflowError] raised when the result leaves years 1..9999 (a [k]
    beyond a timedelta's own range of 999999999 days always does). *)
Definition minus_days (t : datetime) (k : Z) : option stamp :=
  let o := toordinal (dt_date t) - k in
  if (1 <=? o) && (o <=? MAXORDINAL) then Some (o, dt_micro t) else None.

(** *** Digits *)

Definition is_digit (a : ascii) : bool :=
  let n := Z.of_nat (nat_of_ascii a) in (48 <=? n) && (n <=? 57).

Definition digit_val (a : ascii) : Z := Z.of_nat (nat_of_ascii a) - 48.

Definition digit_char (n : Z) : ascii := ascii_of_nat (Z.to_nat (48 + n)).

Definition in_range (lo hi : ascii) (a : ascii) : bool :=
  let n := nat_of_ascii a in
  (nat_of_ascii lo <=? n)%nat && (n <=? nat_of_ascii hi)%nat.

(** *** [strftime("%Y%m%d")] (zero padded, for a four-digit year) *)

Definition pad2 (n : Z) : string :=
  String (digit_char (n / 10 mod 10)) (String (digit_char (n mod 10)) EmptyString).

Definition pad4 (n : Z) : string :=
  String (digit_char (n / 1000 mod 10))
    (String (digit_char (n / 100 mod 10)) (pad2 n)).

Definition strftime_Ymd (d : date) : string :=
  pad4 (year d) +:+ pad2 (month d) +:+ pad2 (day d).

(** *** [strptime(s, "%Y%m%d")]

    The format compiles to the regular expression
    [(\d\d\d\d)(1[0-2]|0[1-9]|[1-9])(3[01]|[12]\d|0[1-9]|[1-9]| [1-9])],
    which is matched at the start of [s] with ordered alternatives and
    backtracking.  Each directive is a function from the remaining input to
    its matches in the order the regex engine tries them; the first
    complete path is the match [re.match] returns. *)

Definition directive : Type := string -> list (Z * string).

Definition re_Y : directive := fun s =>
  match s with
  | String a (String b (String c (String d rest))) =>
      if is_digit a && is_digit b && is_digit c && is_digit d
      then [(1000 * digit_val a + 100 * digit_val b
             + 10 * digit_val c + digit_val d, rest)]
      else []
  | _ => []
  end.

(** Two characters, the first in [a1..a2], the second in [b1..b2]. *)
Definition two (a1 a2 b1 b2 : ascii) : directive := fun s =>
  match s with
  | String a (String b rest) =>
      if in_range a1 a2 a && in_range b1 b2 b
      then [(10 * digit_val a + digit_val b, rest)] else []
  | _ => []
  end.

(** One character in [a1..a2]. *)
Definition one (a1 a2 : ascii) : directive := fun s =>
  match s with
  | String a rest => if in_range a1 a2 a then [(digit_val a, rest)] else []
  | _ => []
  end.

(** A space and one character in [1..9]. *)
Definition spaced : directive := fun s =>
  match s with
  | String a (String b rest) =>
      if Ascii.eqb a " " && in_range "1" "9" b then [(digit_val b, rest)] else []
  | _ => []
  end.

Definition re_m : directive := fun s =>
  (two "1" "1" "0" "2" s ++ two "0" "0" "1" "9" s ++ one "1" "9" s)%list.

Definition re_d : directive := fun s =>
  (two "3" "3" "0" "1" s ++ two "1" "2" "0" "9" s ++ two "0" "0" "1" "9" s
   ++ one "1" "9" s ++ spaced s)%list.

(** All matches of the whole expression, in the engine's order. *)
Definition re_Ymd (s : string) : list (date * string) :=
  '(y, s1) ← re_Y s;
  '(m, s2) ← re_m s1;
  '(d, s3) ← re_d s2;
  [(mkDate y m d, s3)].

(** [None] stands for the [ValueError] of [strptime]: no match, input left
    over after the match, or a date that does not exist. *)
Definition strptime_Ymd (s : string) : option date :=
  match re_Ymd s with
  | [] => None
  | (d, rest) :: _ =>
      match rest with
      | EmptyString => if valid_date d then Some d else None
      | String _ _ => None
      end
  end.

End Calendar.

(** ** The outside world and the effects of the script *)
Module Effects.
Import Calendar.

Definition bytes : Type := list Byte.byte.

(** The exceptions the script can meet. *)
Inductive exn : Type :=
| RuntimeError (stderr : string)   (* mysqldump exited non-zero *)
| OSError (path : string)          (* a file operation failed *)
| ValueError (text : string)       (* strptime rejected [text] *)
| OverflowError                    (* date arithmetic left years 1..9999 *)
| OssError (key : string)          (* oss2.exceptions.OssError *)
| RequestFailure (key : string).   (* any other exception of the upload *)

Definition is_OssError (e : exn) : bool :=
  match e with OssError _ => true | _ => false end.

(** One constructor per [logger] call of the script. *)
Inductive log_entry : Type :=
| InfoLocalBackupOk (gz_file : string)
| ErrorBackupFailed (e : exn)
| InfoUploadOk (object_name : string)
| ErrorUploadFailed (e : exn)
| InfoLocalDeleted (name : string)
| ErrorLocalDeleteFailed (e : exn)
| InfoOssDeleted (key : string)
| ErrorOssFailed (key : string) (e : exn)
| InfoDone
| CriticalAborted (e : exn)
| ErrorMissingEnv (missing : list string).

(** The calls that reach the file system, the dump tool and the bucket, in
    the order they are made. *)
Inductive event : Type :=
| EvOpenWrite (name : string)        (* open(name, "wb"): created or truncated *)
| EvMysqldump (cmd : list string)    (* subprocess.run(cmd, stdout=f) *)
| EvClosed (name : string)           (* name fully written and closed *)
| EvUnlink (name : string)           (* name removed *)
| EvGlob (pattern : string)          (* local_dir.glob(pattern) *)
| EvPutObject (key : string)         (* bucket.put_object_from_file *)
| EvListObjects (prefix : string)    (* oss2.ObjectIterator *)
| EvDeleteObject (key : string)      (* bucket.delete_object *)
| EvMkdir (path : string).           (* local_dir.mkdir(parents=True, exist_ok=True) *)

(** [local]: the files of [local_backup_dir], by name.  [remote]: the
    objects of the bucket, by key.  [log] and [trace] grow at the end. *)
Record world : Type := mkWorld {
  local : gmap string bytes;
  remote : gmap string bytes;
  log : list log_entry;
  trace : list event
}.

(** What the dump step meets. *)
Inductive dump_outcome : Type :=
| DumpCannotOpen                                  (* open(dump_file, "wb") fails *)
| DumpCannotSpawn                                 (* subprocess.run raises *)
| DumpExit (returncode : Z) (stdout : bytes) (stderr : string).

(** What the compression meets. *)
Inductive gzip_outcome : Type :=
| GzipOk
| GzipCannotOpen                                  (* open(gz_file, "wb") fails *)
| GzipIOError (written : bytes).                  (* fails after writing [written] *)

(** What [put_object_from_file] meets. *)
Inductive put_outcome : Type :=
| PutOk
| PutOssError
| PutOtherError.

(** The answers of the outside world during one run.  Listing the
    directory and listing the bucket are taken to succeed. *)
Record Env : Type := mkEnv {
  now : datetime;                   (* datetime.now() in the sweeps *)
  dump : dump_outcome;
  gzip : gzip_outcome;
  put : put_outcome;
  unlink_fails : string -> bool;    (* Path.unlink raises for this name *)
  delete_fails : string -> bool     (* bucket.delete_object raises for this key *)
}.

Inductive result (A : Type) : Type :=
| Ok (a : A)
| Raise (e : exn).
Arguments Ok {A} a.
Arguments Raise {A} e.

(** Computations that change the world and may raise. *)
Definition M (A : Type) : Type := world -> result A * world.

#[global] Instance M_ret : MRet M := fun A a w => (Ok a, w).

#[global] Instance M_bind : MBind M := fun A B f m w =>
  match m w with
  | (Ok a, w') => f a w'
  | (Raise e, w') => (Raise e, w')
  end.

Definition raise {A : Type} (e : exn) : M A := fun w => (Raise e, w).

(** [try: body except Exception as e: handler e] *)
Definition try_except {A : Type} (body : M A) (handler : exn -> M A) : M A :=
  fun w =>
    match body w with
    | (Ok a, w') => (Ok a, w')
    | (Raise e, w') => handler e w'
    end.

(** [for x in l: body x] *)
Fixpoint for_each {A : Type} (body : A -> M unit) (l : list A) : M unit :=
  match l with
  | [] => mret tt
  | x :: l' => body x ;; for_each body l'
  end.

Definition logger (entry : log_entry) : M unit := fun w =>
  (Ok tt, mkWorld (local w) (remote w) (log w ++ [entry]) (trace w)).

Definition emit (ev : event) : M unit := fun w =>
  (Ok tt, mkWorld (local w) (remote w) (log w) (trace w ++ [ev])).

Definition read_local (name : string) : M bytes := fun w =>
  match local w !! name with
  | Some data => (Ok data, w)
  | None => (Raise (OSError name), w)
  end.

Definition write_local (name : string) (data : bytes) : M unit := fun w =>
  (Ok tt, mkWorld (<[name := data]> (local w)) (remote w) (log w) (trace w)).

(** [path.exists()] *)
Definition exists_local (name : string) : M bool := fun w =>
  (Ok (bool_decide (is_Some (local w !! name))), w).

(** [path.unlink()] *)
Definition unlink (env : Env) (name : string) : M unit := fun w =>
  if unlink_fails env name then (Raise (OSError name), w)
  else match local w !! name with
       | None => (Raise (OSError name), w)
       | Some _ =>
           (Ok tt, mkWorld (delete name (local w)) (remote w) (log w)
                     (trace w ++ [EvUnlink name]))
       end.

(** The entries of the directory that match [*.sql.gz], in directory
    order. *)
Definition sql_gz_files (m : gmap string bytes) : list string :=
  filter (fun name => Is_true (Text.endswith name ".sql.gz"
                               && negb (Text.contains "/" name)))
    (map_to_list m).*1.

(** The keys of the bucket that start with [prefix]. *)
Definition keys_under (prefix : string) (m : gmap string bytes) : list string :=
  filter (fun key => Is_true (Text.startswith prefix key)) (map_to_list m).*1.

(** [local_dir.glob("*.sql.gz")] *)
Definition glob_sql_gz : M (list string) := fun w =>
  (Ok (sql_gz_files (local w)),
   mkWorld (local w) (remote w) (log w) (trace w ++ [EvGlob "*.sql.gz"])).

(** [oss2.ObjectIterator(bucket, prefix=prefix)] *)
Definition list_objects (prefix : string) : M (list string) := fun w =>
  (Ok (keys_under prefix (remote w)),
   mkWorld (local w) (remote w) (log w) (trace w ++ [EvListObjects prefix])).

Definition store_object (key : string) (data : bytes) : M unit := fun w =>
  (Ok tt, mkWorld (local w) (<[key := data]> (remote w)) (log w) (trace w)).

Definition remove_object (key : string) : M unit := fun w =>
  (Ok tt, mkWorld (local w) (delete key (remote w)) (log w) (trace w)).

(** [bucket.delete_object(key)]; deleting an absent key is not an error. *)
Definition delete_object (env : Env) (key : string) : M unit :=
  emit (EvDeleteObject key) ;;
  if delete_fails env key then raise (OssError key) else remove_object key.

(** [bucket.put_object_from_file(key, file)] *)
Definition put_object_from_file (env : Env) (key file : string) : M unit :=
  emit (EvPutObject key) ;;
  match put env with
  | PutOssError => raise (OssError key)
  | PutOtherError => raise (RequestFailure key)
  | PutOk =>
      data ← read_local file;
      store_object key data
  end.

End Effects.

(** ** The script *)
Module Script.
Import Calendar Effects.

(** The [CONFIG] dictionary.  It is built from the process environment
    when the module is loaded and read-only afterwards. *)
Record Config : Type := mkConfig {
  mysql_user : string;
  mysql_password : string;
  mysql_database : string;
  mysql_host : string;
  mysql_port : string;
  mysqldump_path : string;
  local_backup_dir : string;
  keep_local_days : Z;
  oss_endpoint : string;
  oss_bucket : string;
  oss_prefix : string;
  keep_oss_days : Z
}.

(** The fields [__init__] sets; [local_dir] and [bucket] are the two
    stores of the [world]. *)
Record BackupManager : Type := mkBackupManager { today : string }.

(** The fields [__init__] computes when the clock reads [clock]; the
    constructor with its effects is [construct] below. *)
Definition init (clock : datetime) : BackupManager :=
  {| today := strftime_Ymd (dt_date clock) |}.

Section Methods.
(** [gzip.GzipFile(...).write]: the compressed form of the data. *)
Variable gzip_compress : bytes -> bytes.
Variable CONFIG : Config.
Variable self : BackupManager.
Variable env : Env.

Definition dump_file_name : string :=
  mysql_database CONFIG +:+ "_" +:+ today self +:+ ".sql".

Definition gz_file_name : string := Text.with_suffix dump_file_name ".sql.gz".

Definition mysqldump_cmd : list string :=
  [ mysqldump_path CONFIG; "--single-transaction";
    "-h"; mysql_host CONFIG;
    "-P"; mysql_port CONFIG;
    "-u"; mysql_user CONFIG;
    "-p" +:+ mysql_password CONFIG;
    mysql_database CONFIG ].

(** [dump_file.open("wb")] *)
Definition open_dump_file (name : string) : M unit :=
  match dump env with
  | DumpCannotOpen => raise (OSError name)
  | _ => emit (EvOpenWrite name) ;; write_local name []
  end.

(** [subprocess.run(cmd, stdout=f, stderr=subprocess.PIPE)]: the exit
    code and the captured error stream. *)
Definition subprocess_run (cmd : list string) (stdout : string)
  : M (Z * string) :=
  emit (EvMysqldump cmd) ;;
  match dump env with
  | DumpExit returncode out err =>
      write_local stdout out ;; mret (returncode, err)
  | _ => raise (OSError (mysqldump_path CONFIG))
  end.

(** Lines 92-94: both files opened, the dump read and written through
    gzip, both files closed. *)
Definition compress (src dst : string) : M unit :=
  data ← read_local src;
  match gzip env with
  | GzipCannotOpen => raise (OSError dst)
  | GzipIOError written =>
      emit (EvOpenWrite dst) ;; write_local dst written ;; raise (OSError dst)
  | GzipOk =>
      emit (EvOpenWrite dst) ;; write_local dst (gzip_compress data) ;;
      emit (EvClosed dst)
  end.

Definition run_mysqldump : M string :=
  let dump_file := dump_file_name in
  let gz_file := gz_file_name in
  try_except
    (open_dump_file dump_file ;;
     process ← subprocess_run mysqldump_cmd dump_file;
     (if negb (process.1 =? 0)%Z
      then raise (RuntimeError process.2)
      else emit (EvClosed dump_file)) ;;
     compress dump_file gz_file ;;
     unlink env dump_file ;;
     logger (InfoLocalBackupOk gz_file) ;;
     mret gz_file)
    (fun e =>
       logger (ErrorBackupFailed e) ;;
       present ← exists_local dump_file;
       (if (present : bool) then unlink env dump_file else mret tt) ;;
       raise e).

Definition upload_to_oss (file_path : string) : M unit :=
  let object_name := oss_prefix CONFIG +:+ Text.path_name file_path in
  try_except
    (put_object_from_file env object_name file_path ;;
     logger (InfoUploadOk object_name))
    (fun e =>
       if is_OssError e
       then logger (ErrorUploadFailed e) ;; raise e
       else raise e).

(** [name.split("_")[-1].replace(".sql.gz", "")] *)
Definition file_date_str (name : string) : string :=
  Text.remove_all ".sql.gz" (Text.split_last "_" name).

(** [datetime.strptime(file_date_str, "%Y%m%d")] *)
Definition parse_file_date (name : string) : M stamp :=
  match strptime_Ymd (file_date_str name) with
  | Some d => mret (midnight d)
  | None => raise (ValueError (file_date_str name))
  end.

(** [datetime.now() - timedelta(days=days)] *)
Definition cutoff (days : Z) : M stamp :=
  match minus_days (now env) days with
  | Some c => mret c
  | None => raise OverflowError
  end.

Definition clean_local_backups : M unit :=
  cutoff_date ← cutoff (keep_local_days CONFIG);
  files ← glob_sql_gz;
  for_each
    (fun f =>
       file_date ← parse_file_date f;
       if stamp_lt file_date cutoff_date
       then try_except
              (unlink env f ;; logger (InfoLocalDeleted f))
              (fun e => logger (ErrorLocalDeleteFailed e))
       else mret tt)
    files.

Definition clean_oss_backups : M unit :=
  cutoff_date ← cutoff (keep_oss_days CONFIG);
  objs ← list_objects (oss_prefix CONFIG);
  for_each
    (fun key =>
       if negb (Text.endswith key ".sql.gz") then mret tt
       else try_except
              (file_date ← parse_file_date (Text.path_name key);
               if stamp_lt file_date cutoff_date
               then delete_object env key ;; logger (InfoOssDeleted key)
               else mret tt)
              (fun e => logger (ErrorOssFailed key e)))
    objs.

Definition execute : M bool :=
  try_except
    (backup_file ← run_mysqldump;
     upload_to_oss backup_file ;;
     clean_local_backups ;;
     logger InfoDone ;;
     mret true)
    (fun e => logger (CriticalAborted e) ;; mret false).

End Methods.

Definition required_envs : list string :=
  [ "MYSQL_USER"; "MYSQL_PASSWORD"; "MYSQL_DATABASE";
    "OSS_ACCESS_KEY_ID"; "OSS_ACCESS_KEY_SECRET";
    "OSS_ENDPOINT"; "OSS_BUCKET" ].

(** [not os.getenv(var)]: unset, or set to the empty string. *)
Definition unset (environ : gmap string string) (var : string) : bool :=
  match environ !! var with
  | None | Some EmptyString => true
  | Some (String _ _) => false
  end.

(** What the loading of the module meets outside the configuration:
    [load_dotenv()] or the set-up of the log file raises, or not. *)
Inductive load_outcome : Type :=
| LoadOk
| LoadError.

(** What [__init__] meets after it has read the clock. *)
Inductive init_outcome : Type :=
| InitOk
| InitCannotMkdir                 (* local_dir.mkdir raises *)
| InitClientError.                (* oss2.Auth or oss2.Bucket raises *)

(** [BackupManager()]: [__init__] reads the clock, creates the backup
    directory if it is absent (the files in it are not touched) and then
    builds the client of the bucket, which sends nothing.  Either step can
    raise. *)
Definition construct (startup : init_outcome) (CONFIG : Config)
    (clock : datetime) : M BackupManager :=
  let self := init clock in
  emit (EvMkdir (local_backup_dir CONFIG)) ;;
  match startup with
  | InitCannotMkdir => raise (OSError (local_backup_dir CONFIG))
  | InitClientError => raise (OssError (oss_bucket CONFIG))
  | InitOk => mret self
  end.

Section Startup.
(** The two conversions of the interpreter that [CONFIG] goes through:
    [int(text)], where [None] stands for its [ValueError], and
    [str(Path(text))]. *)
Variable int_of_str : string -> option Z.
Variable path_text : string -> string.

(** [os.getenv(var, default)]; a variable set to the empty string is
    set. *)
Definition getenv (environ : gmap string string) (var default : string)
  : string :=
  match environ !! var with
  | Some value => value
  | None => default
  end.

(** [int(os.getenv(var, default))] with an integer default. *)
Definition getenv_int (environ : gmap string string) (var : string)
    (default : Z) : result Z :=
  match environ !! var with
  | None => Ok default
  | Some text =>
      match int_of_str text with
      | Some n => Ok n
      | None => Raise (ValueError text)
      end
  end.

(** Lines 20-38, evaluated when the module is loaded; [environ] is the
    process environment after [load_dotenv()].  The five required
    settings without a default are [None] when unset; they are read only
    by [execute], which the check of [main] does not reach in that case,
    and appear here as the empty string. *)
Definition load_config (environ : gmap string string) : result Config :=
  match getenv_int environ "KEEP_LOCAL_DAYS" 3 with
  | Raise e => Raise e
  | Ok keep_local =>
      match getenv_int environ "KEEP_OSS_DAYS" 30 with
      | Raise e => Raise e
      | Ok keep_oss =>
          Ok {| mysql_user := getenv environ "MYSQL_USER" "";
                mysql_password := getenv environ "MYSQL_PASSWORD" "";
                mysql_database := getenv environ "MYSQL_DATABASE" "";
                mysql_host := getenv environ "MYSQL_HOST" "localhost";
                mysql_port := getenv environ "MYSQL_PORT" "3306";
                mysqldump_path :=
                  path_text (getenv environ "MYSQLDUMP_PATH" "mysqldump");
                local_backup_dir :=
                  path_text (getenv environ "LOCAL_BACKUP_DIR" "/backups");
                keep_local_days := keep_local;
                oss_endpoint := getenv environ "OSS_ENDPOINT" "";
                oss_bucket := getenv environ "OSS_BUCKET" "";
                oss_prefix := getenv environ "OSS_PREFIX" "mysql-backups/";
                keep_oss_days := keep_oss |}
      end
  end.

(** The script from the loading of the module to its exit: the exit
    status and the world it leaves.  An exception that nothing catches
    (an error while the module is loaded, the [ValueError] of [int]
    while [CONFIG] is built, an error of the constructor) ends the
    process with status 1 and without a log entry.  [clock] is what
    [datetime.now()] reads in [__init__]. *)
Definition main (gzip_compress : bytes -> bytes)
    (environ : gmap string string) (loading : load_outcome)
    (startup : init_outcome) (clock : datetime) (env : Env) (w : world)
  : Z * world :=
  match loading, load_config environ with
  | LoadError, _ | LoadOk, Raise _ => (1%Z, w)
  | LoadOk, Ok CONFIG =>
      let missing := List.filter (unset environ) required_envs in
      match missing with
      | _ :: _ => (1%Z, snd (logger (ErrorMissingEnv missing) w))
      | [] =>
          match construct startup CONFIG clock w with
          | (Raise _, w0) => (1%Z, w0)
          | (Ok manager, w0) =>
              match execute gzip_compress CONFIG manager env w0 with
              | (Ok success, w') => ((if success then 0 else 1)%Z, w')
              | (Raise _, w') => (1%Z, w')
              end
          end
      end
  end.

End Startup.

End Script.

(** ** What the sweeps and the run are expected to do, as functions *)
Module Policy.
Import Calendar Effects Script.

(** The naming scheme: [{database}_{YYYYMMDD}.sql.gz]. *)
Definition artifact_name (database : string) (d : date) : string :=
  database +:+ "_" +:+ strftime_Ymd d +:+ ".sql.gz".

Definition well_named (name : string) : Prop :=
  ∃ database d, valid_date d = true ∧ name = artifact_name database d.

(** The date a sweep reads off a file name. *)
Definition file_date (name : string) : option date :=
  strptime_Ymd (file_date_str name).

(** The comparison of the sweeps: the file's date, at midnight, is before
    the cutoff. *)
Definition expired (c : stamp) (name : string) : bool :=
  match file_date name with
  | Some d => stamp_lt (midnight d) c
  | None => false
  end.

(** The local sweep removes [name]. *)
Definition local_removed (env : Env) (c : stamp) (name : string) : bool :=
  expired c name && negb (unlink_fails env name).

(** What the local sweep logs for [name]. *)
Definition local_entries (env : Env) (c : stamp) (name : string) : list log_entry :=
  if expired c name
  then if unlink_fails env name
       then [ErrorLocalDeleteFailed (OSError name)]
       else [InfoLocalDeleted name]
  else [].

(** The remote sweep asks the bucket to delete [key]. *)
Definition oss_expired (c : stamp) (key : string) : bool :=
  Text.endswith key ".sql.gz" && expired c (Text.path_name key).

(** The remote sweep removes [key]. *)
Definition oss_removed (env : Env) (c : stamp) (key : string) : bool :=
  oss_expired c key && negb (delete_fails env key).

(** What the remote sweep logs for [key]. *)
Definition oss_entries (env : Env) (c : stamp) (key : string) : list log_entry :=
  if negb (Text.endswith key ".sql.gz") then []
  else match file_date (Text.path_name key) with
       | None => [ErrorOssFailed key (ValueError (file_date_str (Text.path_name key)))]
       | Some d =>
           if stamp_lt (midnight d) c
           then if delete_fails env key
                then [ErrorOssFailed key (OssError key)]
                else [InfoOssDeleted key]
           else []
       end.

Definition oss_calls (c : stamp) (key : string) : list event :=
  if oss_expired c key then [EvDeleteObject key] else [].

Definition local_calls (env : Env) (c : stamp) (name : string) : list event :=
  if local_removed env c name then [EvUnlink name] else [].

(** The entries of a store after a sweep over [names] that removes the
    names [removed] selects. *)
Fixpoint sweep_map (removed : string -> bool) (names : list string)
    (m : gmap string bytes) : gmap string bytes :=
  match names with
  | [] => m
  | name :: rest =>
      sweep_map removed rest (if removed name then delete name m else m)
  end.

(** The key a log entry of the remote sweep is about. *)
Definition oss_entry_key (e : log_entry) : option string :=
  match e with
  | InfoOssDeleted key | ErrorOssFailed key _ => Some key
  | _ => None
  end.

(** The file a log entry of the local sweep is about. *)
Definition local_entry_name (e : log_entry) : option string :=
  match e with
  | InfoLocalDeleted name | ErrorLocalDeleteFailed (OSError name) => Some name
  | _ => None
  end.

(** Calls that belong to the remote cleanup. *)
Definition is_remote_cleanup (ev : event) : bool :=
  match ev with
  | EvListObjects _ | EvDeleteObject _ => true
  | _ => false
  end.

Definition is_put (ev : event) : bool :=
  match ev with EvPutObject _ => true | _ => false end.

(** What every step of the default run guarantees: no object leaves the
    bucket, no call of the remote cleanup is made, and [InfoDone] is not
    logged. *)
Definition step_frame (w w' : world) : Prop :=
  (∀ key, is_Some (remote w !! key) → is_Some (remote w' !! key))
  ∧ (∃ calls, trace w' = trace w ++ calls
              ∧ Forall (fun ev => is_remote_cleanup ev = false) calls)
  ∧ (∃ entries, log w' = log w ++ entries
                ∧ Forall (fun e => e ≠ InfoDone) entries).

Definition respects {A : Type} (m : M A) : Prop :=
  ∀ w, step_frame w (m w).2.

(** The three steps of the default run, lines 153-155 of [execute]. *)
Definition steps (gzip_compress : bytes -> bytes) (CONFIG : Config)
    (self : BackupManager) (env : Env) : M unit :=
  backup_file ← run_mysqldump gzip_compress CONFIG self env;
  upload_to_oss CONFIG env backup_file ;;
  clean_local_backups CONFIG env.

(** The entries and calls a run added to the world it started from. *)
Definition new_entries (w w' : world) : list log_entry :=
  drop (List.length (log w)) (log w').

Definition new_calls (w w' : world) : list event :=
  drop (List.length (trace w)) (trace w').

End Policy.

(** ** Concrete runs, used to exercise the statements below *)
Module Samples.
Import Calendar Effects Script.
Local Open Scope Z_scope.

(** Stands for the compressor: the two magic bytes of gzip, then the data. *)
Definition gzip_stub (data : bytes) : bytes := Byte.x1f :: Byte.x8b :: data.

Definition config (keep_local keep_oss : Z) : Config :=
  {| mysql_user := "backup"; mysql_password := "secret";
     mysql_database := "shop"; mysql_host := "localhost"; mysql_port := "3306";
     mysqldump_path := "mysqldump"; local_backup_dir := "/backups";
     keep_local_days := keep_local;
     oss_endpoint := "oss-cn-hangzhou.aliyuncs.com"; oss_bucket := "backups";
     oss_prefix := "mysql-backups/"; keep_oss_days := keep_oss |}.

Definition environ : gmap string string :=
  list_to_map
    [ ("MYSQL_USER", "backup"); ("MYSQL_PASSWORD", "secret");
      ("MYSQL_DATABASE", "shop"); ("OSS_ACCESS_KEY_ID", "id");
      ("OSS_ACCESS_KEY_SECRET", "key");
      ("OSS_ENDPOINT", "oss-cn-hangzhou.aliyuncs.com");
      ("OSS_BUCKET", "backups") ].

(** Stands for [int]: it reads a non-empty run of decimal digits. *)
Fixpoint digits_value (acc : Z) (s : string) : option Z :=
  match s with
  | EmptyString => Some acc
  | String a t =>
      if is_digit a then digits_value (10 * acc + digit_val a) t else None
  end.

Definition int_stub (s : string) : option Z :=
  match s with
  | EmptyString => None
  | String _ _ => digits_value 0 s
  end.

(** Stands for [str(Path(text))] on paths already in normal form. *)
Definition path_stub (text : string) : string := text.

Definition march_10 : date := mkDate 2024 3 10.

(** 2024-03-10 at 00:00:00.000000 and at 12:00:00.000000. *)
Definition midnight_march_10 : datetime := mkDatetime march_10 0.
Definition noon_march_10 : datetime := mkDatetime march_10 43200000000.

Definition sql_text : bytes := [Byte.x2d; Byte.x2d; Byte.x0a].

(** An outside world in which every call succeeds. *)
Definition fair (clock : datetime) : Env :=
  {| now := clock; dump := DumpExit 0 sql_text ""; gzip := GzipOk; put := PutOk;
     unlink_fails := fun _ => false; delete_fails := fun _ => false |}.

Definition with_dump (o : dump_outcome) (env : Env) : Env :=
  mkEnv (now env) o (gzip env) (put env) (unlink_fails env) (delete_fails env).

Definition with_gzip (o : gzip_outcome) (env : Env) : Env :=
  mkEnv (now env) (dump env) o (put env) (unlink_fails env) (delete_fails env).

Definition with_put (o : put_outcome) (env : Env) : Env :=
  mkEnv (now env) (dump env) (gzip env) o (unlink_fails env) (delete_fails env).

Definition files (names : list string) : gmap string bytes :=
  list_to_map ((fun name => (name, sql_text)) <$> names).

(** A directory and a bucket that hold the given names, nothing logged. *)
Definition stores (local_names remote_keys : list string) : world :=
  mkWorld (files local_names) (files remote_keys) [] [].

End Samples.

(** ** Frames of single steps *)
Module Frames.
Import Effects.

(** The computation leaves the bucket as it found it, whatever its
    outcome. *)
Definition keeps_remote {A : Type} (m : M A) : Prop :=
  ∀ w, remote (m w).2 = remote w.

End Frames.
(** ** Facts about the string operations *)
Module TextFacts.
Import Text.

Lemma append_nil (b : string) : "" +:+ b = b.
Proof. reflexivity. Qed.

Lemma append_cons (x : ascii) (a b : string) :
  String x a +:+ b = String x (a +:+ b).
Proof. reflexivity. Qed.

Lemma length_append (a b : string) :
  String.length (a +:+ b) = String.length a + String.length b.
Proof. induction a as [|c a IH]; rewrite ?append_nil, ?append_cons; simpl; [done | by rewrite IH]. Qed.

Lemma skip_app (a b : string) : skip (String.length a) (a +:+ b) = b.
Proof. induction a as [|c a IH]; rewrite ?append_nil, ?append_cons; simpl; [by destruct b | done]. Qed.

Lemma take_app (a b : string) : take (String.length a) (a +:+ b) = a.
Proof. induction a as [|c a IH]; rewrite ?append_nil, ?append_cons; simpl; [by destruct b | by rewrite IH]. Qed.

Lemma append_assoc (a b c : string) : (a +:+ b) +:+ c = a +:+ (b +:+ c).
Proof. induction a as [|x a IH]; rewrite ?append_nil, ?append_cons; cbn; [done | by f_equal]. Qed.

Lemma append_empty_r (a : string) : a +:+ "" = a.
Proof. induction a as [|x a IH]; rewrite ?append_nil, ?append_cons; simpl; [done | by rewrite IH]. Qed.

Lemma endswith_app (s suf : string) : endswith (s +:+ suf) suf = true.
Proof.
  unfold endswith. rewrite length_append.
  replace (String.length s + String.length suf - String.length suf)
    with (String.length s) by lia.
  rewrite skip_app, String.eqb_refl, andb_true_r.
  apply Nat.leb_le. lia.
Qed.

Lemma contains_app (c : ascii) (a b : string) :
  contains c (a +:+ b) = contains c a || contains c b.
Proof. induction a as [|x a IH]; rewrite ?append_nil, ?append_cons; simpl; [done | rewrite IH; by destruct (Ascii.eqb x c)]. Qed.

Lemma after_last_from_absent (c : ascii) (s cur : string) :
  contains c s = false → after_last_from c s cur = cur.
Proof.
  revert cur. induction s as [|x s IH]; simpl; intros cur H; [done |].
  apply orb_false_iff in H as [-> H]. by apply IH.
Qed.

Lemma after_last_from_app (c : ascii) (a b cur : string) :
  after_last_from c (a +:+ String c b) cur = after_last_from c b b.
Proof.
  revert cur. induction a as [|x a IH]; rewrite ?append_nil, ?append_cons; simpl; intros cur.
  - by rewrite Ascii.eqb_refl.
  - destruct (Ascii.eqb x c); apply IH.
Qed.

(** The text after the last separator. *)
Lemma split_last_app (c : ascii) (a b : string) :
  contains c b = false → split_last c (a +:+ String c b) = b.
Proof.
  intros H. unfold split_last.
  by rewrite after_last_from_app, after_last_from_absent.
Qed.

Lemma split_last_absent (c : ascii) (s : string) :
  contains c s = false → split_last c s = s.
Proof. apply after_last_from_absent. Qed.

Lemma rfind_from_app (c : ascii) (a b : string) (idx : nat) (found : option nat) :
  rfind_from c (a +:+ b) idx found
  = rfind_from c b (idx + String.length a) (rfind_from c a idx found).
Proof.
  revert idx found. induction a as [|x a IH]; rewrite ?append_nil, ?append_cons; simpl; intros idx found.
  - by rewrite Nat.add_0_r.
  - rewrite IH. f_equal. lia.
Qed.

Lemma rfind_from_absent (c : ascii) (s : string) (idx : nat) (found : option nat) :
  contains c s = false → rfind_from c s idx found = found.
Proof.
  revert idx found. induction s as [|x s IH]; simpl; intros idx found H; [done |].
  apply orb_false_iff in H as [-> H]. by apply IH.
Qed.

(** A name that ends in [.sql] gets [.sql] replaced, whatever dots the
    rest of the name holds. *)
Lemma with_suffix_sql (p suf : string) :
  p ≠ "" → with_suffix (p +:+ ".sql") suf = p +:+ suf.
Proof.
  intros Hp. unfold with_suffix, suffix, rfind.
  rewrite rfind_from_app. simpl rfind_from.
  rewrite length_append. simpl String.length.
  assert (0 < String.length p) as Hlen by (destruct p; [done | simpl; lia]).
  replace (0 <? String.length p)%nat with true by (symmetry; apply Nat.ltb_lt; lia).
  replace (String.length p <? String.length p + 4 - 1)%nat with true
    by (symmetry; apply Nat.ltb_lt; lia).
  simpl andb. rewrite skip_app. simpl String.length.
  replace (String.length p + 4 - 4) with (String.length p) by lia.
  by rewrite take_app.
Qed.

Lemma startswith_head (pat s : string) (c x : ascii) :
  Ascii.eqb c x = false → startswith (String c pat) (String x s) = false.
Proof. intros H. simpl. by rewrite H. Qed.

(** Text without a dot holds no occurrence of [.sql.gz]. *)
Lemma remove_from_no_dot (t u : string) :
  contains "." t = false →
  remove_from ".sql.gz" (t +:+ u) 0 = t +:+ remove_from ".sql.gz" u 0.
Proof.
  induction t as [|x t IH]; intros H; [done |].
  simpl in H. apply orb_false_iff in H as [Hx H].
  rewrite append_cons.
  cbn [remove_from].
  rewrite startswith_head by (by rewrite Ascii.eqb_sym).
  by rewrite IH.
Qed.

Lemma remove_all_sql_gz (t : string) :
  contains "." t = false → remove_all ".sql.gz" (t +:+ ".sql.gz") = t.
Proof.
  intros H. unfold remove_all. rewrite remove_from_no_dot by done.
  simpl. apply append_empty_r.
Qed.

End TextFacts.
(** ** Facts about dates and their text form *)
Module CalendarFacts.
Import Text TextFacts Calendar.
Local Open Scope Z_scope.

Lemma digit_cases (k : Z) :
  0 ≤ k < 10 →
  k = 0 ∨ k = 1 ∨ k = 2 ∨ k = 3 ∨ k = 4 ∨ k = 5 ∨ k = 6 ∨ k = 7 ∨ k = 8 ∨ k = 9.
Proof. lia. Qed.

Ltac each_digit k H :=
  destruct (digit_cases k H) as [->|[->|[->|[->|[->|[->|[->|[->|[->| ->]]]]]]]]].

Lemma is_digit_digit_char (k : Z) : 0 ≤ k < 10 → is_digit (digit_char k) = true.
Proof. intros H. each_digit k H; reflexivity. Qed.

Lemma digit_val_digit_char (k : Z) : 0 ≤ k < 10 → digit_val (digit_char k) = k.
Proof. intros H. each_digit k H; reflexivity. Qed.

(** A digit is none of the separators the script looks for. *)
Lemma digit_char_not_sep (k : Z) (c : ascii) :
  0 ≤ k < 10 → is_digit c = false → Ascii.eqb (digit_char k) c = false.
Proof.
  intros H Hc. destruct (Ascii.eqb_spec (digit_char k) c) as [<-|]; [|done].
  by rewrite is_digit_digit_char in Hc.
Qed.

Lemma mod10_digit (n : Z) : 0 ≤ n mod 10 < 10.
Proof. apply Z.mod_pos_bound. lia. Qed.

(** The text of a date holds digits only. *)
Lemma strftime_Ymd_no_sep (d : date) (c : ascii) :
  is_digit c = false → contains c (strftime_Ymd d) = false.
Proof.
  intros Hc. unfold strftime_Ymd, pad4, pad2.
  rewrite !append_cons, !append_nil. cbn [contains].
  rewrite !digit_char_not_sep by (done || apply mod10_digit). done.
Qed.

Lemma strftime_Ymd_length (d : date) : String.length (strftime_Ymd d) = 8%nat.
Proof. reflexivity. Qed.

Lemma re_Y_pad4 (y : Z) (rest : string) :
  0 ≤ y ≤ 9999 → re_Y (pad4 y +:+ rest) = [(y, rest)].
Proof.
  intros Hy. unfold pad4, pad2. rewrite !append_cons, append_nil.
  unfold re_Y. rewrite !is_digit_digit_char, !digit_val_digit_char
    by apply mod10_digit.
  cbn [andb]. do 2 f_equal.
  pose proof (Z.div_mod y 10 ltac:(lia)).
  pose proof (Z.div_mod (y / 10) 10 ltac:(lia)).
  pose proof (Z.div_mod (y / 10 / 10) 10 ltac:(lia)).
  pose proof (Z.div_mod (y / 10 / 10 / 10) 10 ltac:(lia)).
  rewrite !Z.div_div in * by lia.
  change (10 * 10) with 100 in *. change (100 * 10) with 1000 in *.
  change (1000 * 10) with 10000 in *.
  assert (y / 10000 = 0) by (apply Z.div_small; lia).
  assert (y / 1000 mod 10 = y / 1000).
  { apply Z.mod_small. split; [apply Z.div_pos; lia|].
    apply Z.div_lt_upper_bound; lia. }
  lia.
Qed.

Lemma days_in_month_le (y m : Z) : days_in_month y m ≤ 31.
Proof.
  unfold days_in_month. destruct ((m =? 2) && is_leap y); [lia|].
  unfold DAYS_IN_MONTH.
  repeat (match goal with |- context [match ?x with _ => _ end] => destruct x end);
    lia.
Qed.

Lemma valid_date_bounds (d : date) :
  valid_date d = true →
  1 ≤ year d ≤ 9999 ∧ 1 ≤ month d ≤ 12 ∧ 1 ≤ day d ≤ 31.
Proof.
  unfold valid_date, MINYEAR, MAXYEAR. intros H.
  repeat (apply andb_true_iff in H as [H ?]).
  pose proof (days_in_month_le (year d) (month d)). lia.
Qed.

Lemma month_cases (m : Z) :
  1 ≤ m ≤ 12 →
  m = 1 ∨ m = 2 ∨ m = 3 ∨ m = 4 ∨ m = 5 ∨ m = 6 ∨ m = 7 ∨ m = 8 ∨ m = 9
  ∨ m = 10 ∨ m = 11 ∨ m = 12.
Proof. lia. Qed.

Lemma day_cases (d : Z) :
  1 ≤ d ≤ 31 →
  (d = 1 ∨ d = 2 ∨ d = 3 ∨ d = 4 ∨ d = 5 ∨ d = 6 ∨ d = 7 ∨ d = 8 ∨ d = 9 ∨ d = 10)
  ∨ (d = 11 ∨ d = 12 ∨ d = 13 ∨ d = 14 ∨ d = 15 ∨ d = 16 ∨ d = 17 ∨ d = 18
     ∨ d = 19 ∨ d = 20)
  ∨ (d = 21 ∨ d = 22 ∨ d = 23 ∨ d = 24 ∨ d = 25 ∨ d = 26 ∨ d = 27 ∨ d = 28
     ∨ d = 29 ∨ d = 30 ∨ d = 31).
Proof. lia. Qed.

(** The month and day directives read back what [pad2] wrote: the first
    complete match of the expression is the date itself. *)
Lemma re_md_pad2 (y m d : Z) :
  1 ≤ m ≤ 12 → 1 ≤ d ≤ 31 →
  head ('(m', s2) ← re_m (pad2 m +:+ pad2 d);
        '(d', s3) ← re_d s2;
        [(mkDate y m' d', s3)]) = Some (mkDate y m d, "").
Proof.
  intros Hm Hd.
  destruct (month_cases m Hm) as [->|[->|[->|[->|[->|[->|[->|[->|[->|[->|[->| ->]]]]]]]]]]];
    destruct (day_cases d Hd) as
      [[->|[->|[->|[->|[->|[->|[->|[->|[->| ->]]]]]]]]]
      |[[->|[->|[->|[->|[->|[->|[->|[->|[->| ->]]]]]]]]]
       |[->|[->|[->|[->|[->|[->|[->|[->|[->|[->| ->]]]]]]]]]]]];
    reflexivity.
Qed.

(** Parsing the text of a date gives the date back. *)
Lemma strptime_strftime (d : date) :
  valid_date d = true → 1000 ≤ year d →
  strptime_Ymd (strftime_Ymd d) = Some d.
Proof.
  intros Hv Hy. destruct (valid_date_bounds d Hv) as (Hyr & Hm & Hd).
  unfold strptime_Ymd, re_Ymd, strftime_Ymd.
  rewrite re_Y_pad4 by lia.
  pose proof (re_md_pad2 (year d) (month d) (day d) Hm Hd) as Hhead.
  cbn [mbind list_bind]. rewrite app_nil_r.
  destruct (_ ≫= _) as [|[d0 rest] tl]; [done |].
  injection Hhead as -> ->. destruct d; simpl in *. by rewrite Hv.
Qed.

End CalendarFacts.
(** ** Facts about the effects *)
Module EffectFacts.
Import Effects Policy.

Lemma bind_eq {A B : Type} (m : M A) (f : A → M B) (w : world) :
  (m ≫= f) w
  = match m w with
    | (Ok a, w') => f a w'
    | (Raise e, w') => (Raise e, w')
    end.
Proof. reflexivity. Qed.

Lemma bind_Ok {A B : Type} (m : M A) (f : A → M B) (w w' : world) (a : A) :
  m w = (Ok a, w') → (m ≫= f) w = f a w'.
Proof. intros H. by rewrite bind_eq, H. Qed.

Lemma bind_Raise {A B : Type} (m : M A) (f : A → M B) (w w' : world) (e : exn) :
  m w = (Raise e, w') → (m ≫= f) w = (Raise e, w').
Proof. intros H. by rewrite bind_eq, H. Qed.

(** A sequence returns only if both parts return. *)
Lemma bind_Ok_inv {A B : Type} (m : M A) (f : A → M B) (w w' : world) (b : B) :
  (m ≫= f) w = (Ok b, w') →
  ∃ a w1, m w = (Ok a, w1) ∧ f a w1 = (Ok b, w').
Proof.
  rewrite bind_eq. destruct (m w) as [[a|e] w1]; [eauto | done].
Qed.

Lemma for_each_cons {A : Type} (body : A → M unit) (x : A) (l : list A) :
  for_each body (x :: l) = (body x ;; for_each body l).
Proof. reflexivity. Qed.

(** *** The frame of the default run *)

Lemma step_frame_refl (w : world) : step_frame w w.
Proof.
  split; [done |]. split; exists []; by rewrite app_nil_r.
Qed.

Lemma step_frame_trans (w1 w2 w3 : world) :
  step_frame w1 w2 → step_frame w2 w3 → step_frame w1 w3.
Proof.
  intros (Hr1 & (c1 & Ht1 & Hc1) & (e1 & Hl1 & He1))
         (Hr2 & (c2 & Ht2 & Hc2) & (e2 & Hl2 & He2)).
  split; [by auto |]. split.
  - exists (c1 ++ c2). rewrite Ht2, Ht1, <- app_assoc.
    split; [done | by apply Forall_app].
  - exists (e1 ++ e2). rewrite Hl2, Hl1, <- app_assoc.
    split; [done | by apply Forall_app].
Qed.

Lemma respects_ret {A : Type} (a : A) : respects (mret a).
Proof. intros w. apply step_frame_refl. Qed.

Lemma respects_raise {A : Type} (e : exn) : respects (@raise A e).
Proof. intros w. apply step_frame_refl. Qed.

Lemma respects_bind {A B : Type} (m : M A) (f : A → M B) :
  respects m → (∀ a, respects (f a)) → respects (m ≫= f).
Proof.
  intros Hm Hf w. rewrite bind_eq. specialize (Hm w).
  destruct (m w) as [[a|e] w1]; simpl in *; [|done].
  eapply step_frame_trans; [done | apply Hf].
Qed.

Lemma respects_try_except {A : Type} (body : M A) (handler : exn → M A) :
  respects body → (∀ e, respects (handler e)) → respects (try_except body handler).
Proof.
  intros Hm Hf w. unfold try_except. specialize (Hm w).
  destruct (body w) as [[a|e] w1]; simpl in *; [done |].
  eapply step_frame_trans; [done | apply Hf].
Qed.

Lemma respects_for_each {A : Type} (body : A → M unit) (l : list A) :
  (∀ x, respects (body x)) → respects (for_each body l).
Proof.
  intros Hb. induction l as [|x l IH]; [apply respects_ret |].
  rewrite for_each_cons. by apply respects_bind.
Qed.

Lemma respects_logger (entry : log_entry) :
  entry ≠ InfoDone → respects (logger entry).
Proof.
  intros He w. split; [done |]. split.
  - exists []. by rewrite app_nil_r.
  - exists [entry]. split; [done | by constructor].
Qed.

Lemma respects_emit (ev : event) :
  is_remote_cleanup ev = false → respects (emit ev).
Proof.
  intros He w. split; [done |]. split.
  - exists [ev]. split; [done | by constructor].
  - exists []. by rewrite app_nil_r.
Qed.

Lemma respects_read_local (name : string) : respects (read_local name).
Proof.
  intros w. unfold read_local. destruct (local w !! name); apply step_frame_refl.
Qed.

Lemma respects_write_local (name : string) (data : bytes) :
  respects (write_local name data).
Proof.
  intros w. split; [done |]. split; exists []; by rewrite app_nil_r.
Qed.

Lemma respects_exists_local (name : string) : respects (exists_local name).
Proof. intros w. apply step_frame_refl. Qed.

Lemma respects_unlink (env : Env) (name : string) : respects (unlink env name).
Proof.
  intros w. unfold unlink.
  destruct (unlink_fails env name); [apply step_frame_refl |].
  destruct (local w !! name); [| apply step_frame_refl].
  split; [done |]. split.
  - exists [EvUnlink name]. split; [done | by constructor].
  - exists []. by rewrite app_nil_r.
Qed.

Lemma respects_glob_sql_gz : respects glob_sql_gz.
Proof.
  intros w. split; [done |]. split.
  - exists [EvGlob "*.sql.gz"]. split; [done | by constructor].
  - exists []. by rewrite app_nil_r.
Qed.

Lemma respects_store_object (key : string) (data : bytes) :
  respects (store_object key data).
Proof.
  intros w. split.
  - intros k Hk. simpl. destruct (decide (key = k)) as [->|Hne].
    + rewrite lookup_insert_eq. eauto.
    + by rewrite lookup_insert_ne.
  - split; exists []; by rewrite app_nil_r.
Qed.

Lemma respects_put_object_from_file (env : Env) (key file : string) :
  respects (put_object_from_file env key file).
Proof.
  unfold put_object_from_file.
  apply respects_bind; [by apply respects_emit |]. intros _.
  destruct (put env); try apply respects_raise.
  apply respects_bind; [apply respects_read_local |].
  intros data. apply respects_store_object.
Qed.

Create HintDb frame.
#[export] Hint Resolve respects_ret respects_raise respects_bind
  respects_try_except respects_for_each respects_logger respects_emit
  respects_read_local respects_write_local respects_exists_local
  respects_unlink respects_glob_sql_gz respects_store_object
  respects_put_object_from_file : frame.

End EffectFacts.
(** ** Facts about the methods of [BackupManager] *)
Module ScriptFacts.
Import Text TextFacts Calendar CalendarFacts Effects EffectFacts Script Policy.

Lemma gz_file_name_eq (CONFIG : Config) (self : BackupManager) :
  gz_file_name CONFIG self
  = mysql_database CONFIG +:+ "_" +:+ today self +:+ ".sql.gz".
Proof.
  unfold gz_file_name, dump_file_name.
  rewrite <- !append_assoc. apply with_suffix_sql.
  destruct (mysql_database CONFIG); rewrite ?append_nil, ?append_cons; done.
Qed.

Lemma gz_file_name_ne (CONFIG : Config) (self : BackupManager) :
  gz_file_name CONFIG self ≠ dump_file_name CONFIG self.
Proof.
  rewrite gz_file_name_eq. unfold dump_file_name. intros H.
  apply (f_equal String.length) in H. rewrite !length_append in H.
  simpl in H. lia.
Qed.

(** The compressed file of the day carries the name of the scheme. *)
Lemma gz_file_name_init (CONFIG : Config) (clock : datetime) :
  gz_file_name CONFIG (init clock)
  = artifact_name (mysql_database CONFIG) (dt_date clock).
Proof. apply gz_file_name_eq. Qed.

Ltac unfold_effects :=
  unfold try_except, mbind, M_bind, mret, M_ret, emit, write_local, read_local,
    exists_local, unlink, logger, raise, store_object.

Section Run.
Variable gzip_compress : bytes → bytes.
Variable CONFIG : Config.
Variable self : BackupManager.
Variable env : Env.

Abbreviation dump_file := (dump_file_name CONFIG self).
Abbreviation gz_file := (gz_file_name CONFIG self).
Abbreviation backup := (run_mysqldump gzip_compress CONFIG self env).

Ltac run_backup :=
  unfold run_mysqldump, open_dump_file, subprocess_run, compress;
  unfold_effects.

Lemma run_mysqldump_ok (w : world) (out : bytes) (err : string) :
  dump env = DumpExit 0 out err → gzip env = GzipOk →
  unlink_fails env dump_file = false →
  backup w
  = (Ok gz_file,
     mkWorld (<[gz_file := gzip_compress out]> (delete dump_file (local w)))
       (remote w)
       (log w ++ [InfoLocalBackupOk gz_file])
       (trace w ++ [EvOpenWrite dump_file; EvMysqldump (mysqldump_cmd CONFIG);
                    EvClosed dump_file; EvOpenWrite gz_file; EvClosed gz_file;
                    EvUnlink dump_file])).
Proof.
  intros Hd Hg Hu. run_backup. rewrite Hd, Hg. cbn.
  rewrite lookup_insert_eq. cbn. rewrite Hu.
  rewrite lookup_insert_ne by apply gz_file_name_ne.
  rewrite lookup_insert_eq. cbn.
  rewrite <- !app_assoc. simpl.
  rewrite insert_insert_eq, delete_insert_ne by (symmetry; apply gz_file_name_ne).
  by rewrite delete_insert_eq.
Qed.

(** The dump tool exits non-zero. *)
Lemma run_mysqldump_dump_failed (w : world) (rc : Z) (out : bytes) (err : string) :
  dump env = DumpExit rc out err → rc ≠ 0%Z →
  unlink_fails env dump_file = false →
  backup w
  = (Raise (RuntimeError err),
     mkWorld (delete dump_file (local w)) (remote w)
       (log w ++ [ErrorBackupFailed (RuntimeError err)])
       (trace w ++ [EvOpenWrite dump_file; EvMysqldump (mysqldump_cmd CONFIG);
                    EvUnlink dump_file])).
Proof.
  intros Hd Hrc Hu. run_backup. rewrite Hd. cbn.
  replace (rc =? 0)%Z with false by (symmetry; by apply Z.eqb_neq).
  cbn. rewrite lookup_insert_eq. cbn. rewrite Hu, lookup_insert_eq.
  rewrite <- !app_assoc. simpl.
  by rewrite insert_insert_eq, delete_insert_eq.
Qed.

(** The compression fails after writing part of its output. *)
Lemma run_mysqldump_gzip_failed (w : world) (out written : bytes) (err : string) :
  dump env = DumpExit 0 out err → gzip env = GzipIOError written →
  unlink_fails env dump_file = false →
  backup w
  = (Raise (OSError gz_file),
     mkWorld (<[gz_file := written]> (delete dump_file (local w))) (remote w)
       (log w ++ [ErrorBackupFailed (OSError gz_file)])
       (trace w ++ [EvOpenWrite dump_file; EvMysqldump (mysqldump_cmd CONFIG);
                    EvClosed dump_file; EvOpenWrite gz_file;
                    EvUnlink dump_file])).
Proof.
  intros Hd Hg Hu. run_backup. rewrite Hd, Hg. cbn.
  rewrite lookup_insert_eq. cbn.
  rewrite lookup_insert_ne by apply gz_file_name_ne.
  rewrite lookup_insert_eq. cbn. rewrite Hu.
  rewrite lookup_insert_ne by apply gz_file_name_ne.
  rewrite lookup_insert_eq.
  rewrite <- !app_assoc. simpl.
  rewrite insert_insert_eq, delete_insert_ne by (symmetry; apply gz_file_name_ne).
  by rewrite delete_insert_eq.
Qed.

(** The backup step returns only on the path where everything worked. *)
Lemma run_mysqldump_Ok_inv (w w' : world) (name : string) :
  backup w = (Ok name, w') →
  ∃ out err, dump env = DumpExit 0 out err ∧ gzip env = GzipOk
             ∧ unlink_fails env dump_file = false.
Proof.
  run_backup.
  destruct (dump env) as [| |rc out err] eqn:Hd; cbn.
  - repeat case_match; done.
  - rewrite lookup_insert_eq. repeat case_match; done.
  - destruct (rc =? 0)%Z eqn:Hrc; cbn.
    + apply Z.eqb_eq in Hrc as ->. rewrite lookup_insert_eq.
      destruct (gzip env) eqn:Hg; cbn;
        rewrite ?lookup_insert_eq,
          ?(lookup_insert_ne _ _ _ _ (gz_file_name_ne CONFIG self)),
          ?lookup_insert_eq; cbn.
      * destruct (unlink_fails env dump_file) eqn:Hu; cbn.
        -- repeat case_match; done.
        -- eauto.
      * repeat case_match; done.
      * rewrite ?(lookup_insert_ne _ _ _ _ (gz_file_name_ne CONFIG self)).
        repeat case_match; done.
    + rewrite lookup_insert_eq. repeat case_match; done.
Qed.


Lemma respects_run_mysqldump : respects backup.
Proof.
  unfold run_mysqldump, open_dump_file, subprocess_run, compress.
  apply respects_try_except.
  - repeat (apply respects_bind; [| intros ?]);
      repeat case_match; auto 10 with frame.
  - intros e. repeat (apply respects_bind; [| intros ?]);
      repeat case_match; auto with frame.
Qed.

Abbreviation object_name file := (oss_prefix CONFIG +:+ path_name file).

Lemma upload_to_oss_ok (w : world) (file : string) (data : bytes) :
  put env = PutOk → local w !! file = Some data →
  upload_to_oss CONFIG env file w
  = (Ok (),
     mkWorld (local w) (<[object_name file := data]> (remote w))
       (log w ++ [InfoUploadOk (object_name file)])
       (trace w ++ [EvPutObject (object_name file)])).
Proof.
  intros Hp Hf. unfold upload_to_oss, put_object_from_file. rewrite Hp.
  unfold_effects. cbn. by rewrite Hf.
Qed.

(** A failed upload changes neither store. *)
Lemma upload_to_oss_failed (w : world) (file : string) :
  put env ≠ PutOk →
  ∃ e entries,
    upload_to_oss CONFIG env file w
    = (Raise e,
       mkWorld (local w) (remote w) (log w ++ entries)
         (trace w ++ [EvPutObject (object_name file)])).
Proof.
  intros Hp. unfold upload_to_oss, put_object_from_file. unfold_effects.
  destruct (put env); [done | |]; cbn.
  - by eexists _, [_].
  - eexists _, []. by rewrite app_nil_r.
Qed.

Lemma upload_to_oss_Ok_inv (w w' : world) (file : string) :
  upload_to_oss CONFIG env file w = (Ok (), w') →
  put env = PutOk ∧ ∃ data, local w !! file = Some data.
Proof.
  unfold upload_to_oss, put_object_from_file. unfold_effects.
  destruct (put env); cbn; [| done..].
  destruct (local w !! file) eqn:Hf; cbn; [eauto | done].
Qed.

Lemma respects_upload_to_oss (file : string) :
  respects (upload_to_oss CONFIG env file).
Proof.
  unfold upload_to_oss. apply respects_try_except.
  - auto with frame.
  - intros e. destruct (is_OssError e); auto with frame.
Qed.

End Run.

(** *** The sweeps *)

Lemma lookup_sweep_map (removed : string → bool) (names : list string)
    (m : gmap string bytes) (k : string) :
  sweep_map removed names m !! k
  = if decide (k ∈ names ∧ removed k = true) then None else m !! k.
Proof.
  revert m. induction names as [|f names IH]; intros m; cbn [sweep_map].
  - rewrite decide_False; [done |]. intros [H _]. by apply elem_of_nil in H.
  - rewrite IH. destruct (decide (k ∈ names ∧ removed k = true)) as [[Hin Hr]|Hn].
    + rewrite decide_True; [done |]. split; [by right | done].
    + destruct (decide (k = f)) as [->|Hne].
      * destruct (removed f) eqn:Hr.
        -- rewrite lookup_delete_eq, decide_True; [done |].
           split; [by left | done].
        -- rewrite decide_False; [done |]. intros [_ ?]. done.
      * rewrite decide_False.
        -- destruct (removed f); [by rewrite lookup_delete_ne | done].
        -- intros [Hin Hr]. apply elem_of_cons in Hin as [?|?]; [done |].
           by apply Hn.
Qed.

Lemma sweep_map_none (removed : string → bool) (names : list string)
    (m : gmap string bytes) :
  (∀ k, k ∈ names → removed k = false) → sweep_map removed names m = m.
Proof.
  intros H. apply map_eq. intros k. rewrite lookup_sweep_map.
  rewrite decide_False; [done |]. intros [Hin Hr]. by rewrite H in Hr.
Qed.

Lemma world_eta (w : world) :
  mkWorld (local w) (remote w) (log w) (trace w) = w.
Proof. by destruct w. Qed.

Section Sweeps.
Variable CONFIG : Config.
Variable env : Env.

Abbreviation local_body c :=
  (fun f =>
     file_date ← parse_file_date f;
     if stamp_lt file_date c
     then try_except
            (unlink env f ;; logger (InfoLocalDeleted f))
            (fun e => logger (ErrorLocalDeleteFailed e))
     else mret ()).

Lemma local_body_ok (c : stamp) (f : string) (w : world) :
  is_Some (file_date f) → is_Some (local w !! f) →
  local_body c f w
  = (Ok (),
     mkWorld (if local_removed env c f then delete f (local w) else local w)
       (remote w) (log w ++ local_entries env c f)
       (trace w ++ local_calls env c f)).
Proof.
  intros [d Hd] [data Hf].
  unfold parse_file_date, local_removed, local_entries, local_calls,
    local_removed, expired.
  unfold file_date in Hd. unfold file_date. rewrite Hd.
  unfold_effects. cbn.
  destruct (stamp_lt (midnight d) c); cbn.
  - destruct (unlink_fails env f); cbn.
    + by rewrite app_nil_r.
    + by rewrite Hf.
  - by rewrite !app_nil_r, world_eta.
Qed.

(** A name whose date does not parse ends the local sweep. *)
Lemma local_body_unparsed (c : stamp) (f : string) (w : world) :
  file_date f = None →
  local_body c f w = (Raise (ValueError (file_date_str f)), w).
Proof.
  intros Hd. unfold parse_file_date. unfold file_date in Hd. by rewrite Hd.
Qed.

Lemma local_loop_ok (c : stamp) (names : list string) (w : world) :
  NoDup names →
  (∀ f, f ∈ names → is_Some (local w !! f)) →
  Forall (fun f => is_Some (file_date f)) names →
  for_each (local_body c) names w
  = (Ok (),
     mkWorld (sweep_map (local_removed env c) names (local w)) (remote w)
       (log w ++ flat_map (local_entries env c) names)
       (trace w ++ flat_map (local_calls env c) names)).
Proof.
  revert w. induction names as [|f names IH]; intros w Hnd Hin Hp.
  - simpl. by rewrite !app_nil_r, world_eta.
  - apply NoDup_cons in Hnd as [Hf Hnd]. apply Forall_cons in Hp as [Hpf Hp].
    rewrite for_each_cons.
    erewrite bind_Ok; [| apply local_body_ok; [done | apply Hin; by left]].
    rewrite IH; [| done | | done].
    + simpl. by rewrite <- !app_assoc.
    + intros g Hg. simpl.
      destruct (local_removed env c f); [| apply Hin; by right].
      rewrite lookup_delete_ne; [apply Hin; by right |].
      intros ->. done.
Qed.

Lemma local_loop_Ok_inv (c : stamp) (names : list string) (w w' : world) :
  for_each (local_body c) names w = (Ok (), w') →
  Forall (fun f => is_Some (file_date f)) names.
Proof.
  revert w. induction names as [|f names IH]; intros w H; [done |].
  rewrite for_each_cons in H. apply bind_Ok_inv in H as (a & w1 & H1 & H2).
  constructor; [| by eapply IH].
  destruct (file_date f) eqn:Hd; [done |].
  by rewrite local_body_unparsed in H1.
Qed.

Lemma sql_gz_files_spec (m : gmap string bytes) (f : string) :
  f ∈ sql_gz_files m
  ↔ is_Some (m !! f) ∧ endswith f ".sql.gz" = true ∧ contains "/" f = false.
Proof.
  unfold sql_gz_files. rewrite list_elem_of_filter, list_elem_of_fmap.
  rewrite Is_true_true, andb_true_iff, negb_true_iff. split.
  - intros [H [[k v] [-> Hkv]]]. apply elem_of_map_to_list in Hkv.
    simpl in *. split; [eauto | done].
  - intros [[v Hv] H]. split; [done |]. exists (f, v).
    split; [done | by apply elem_of_map_to_list].
Qed.

Lemma NoDup_sql_gz_files (m : gmap string bytes) : NoDup (sql_gz_files m).
Proof. apply NoDup_filter, NoDup_fst_map_to_list. Qed.

Lemma clean_local_backups_ok (c : stamp) (w : world) :
  minus_days (now env) (keep_local_days CONFIG) = Some c →
  Forall (fun f => is_Some (file_date f)) (sql_gz_files (local w)) →
  clean_local_backups CONFIG env w
  = (Ok (),
     mkWorld (sweep_map (local_removed env c) (sql_gz_files (local w)) (local w))
       (remote w)
       (log w ++ flat_map (local_entries env c) (sql_gz_files (local w)))
       (trace w ++ EvGlob "*.sql.gz"
          :: flat_map (local_calls env c) (sql_gz_files (local w)))).
Proof.
  intros Hc Hp. unfold clean_local_backups, cutoff. rewrite Hc.
  rewrite bind_eq. cbn [mret M_ret]. rewrite bind_eq. cbn [glob_sql_gz].
  rewrite local_loop_ok; cbn.
  - by rewrite <- app_assoc.
  - apply NoDup_sql_gz_files.
  - intros f Hf. by apply sql_gz_files_spec in Hf as [? _].
  - done.
Qed.

Lemma clean_local_backups_Ok_inv (w w' : world) :
  clean_local_backups CONFIG env w = (Ok (), w') →
  ∃ c, minus_days (now env) (keep_local_days CONFIG) = Some c
       ∧ Forall (fun f => is_Some (file_date f)) (sql_gz_files (local w)).
Proof.
  unfold clean_local_backups, cutoff.
  destruct (minus_days _ _) as [c|]; [| done].
  rewrite bind_eq. cbn [mret M_ret]. rewrite bind_eq. cbn [glob_sql_gz].
  intros H. exists c. split; [done |]. by eapply local_loop_Ok_inv.
Qed.

Lemma respects_clean_local_backups : respects (clean_local_backups CONFIG env).
Proof.
  unfold clean_local_backups, cutoff, parse_file_date.
  apply respects_bind; [case_match; auto with frame |]. intros c.
  apply respects_bind; [auto with frame |]. intros names.
  apply respects_for_each. intros f.
  apply respects_bind; [case_match; auto with frame |]. intros d.
  case_match; auto 10 with frame.
Qed.


Abbreviation oss_body c :=
  (fun key =>
     if negb (endswith key ".sql.gz") then mret ()
     else try_except
            (file_date ← parse_file_date (path_name key);
             if stamp_lt file_date c
             then delete_object env key ;; logger (InfoOssDeleted key)
             else mret ())
            (fun e => logger (ErrorOssFailed key e))).

(** Whatever the key, one round of the remote sweep returns. *)
Lemma oss_body_ok (c : stamp) (key : string) (w : world) :
  oss_body c key w
  = (Ok (),
     mkWorld (local w)
       (if oss_removed env c key then delete key (remote w) else remote w)
       (log w ++ oss_entries env c key) (trace w ++ oss_calls c key)).
Proof.
  unfold oss_removed, oss_entries, oss_calls, oss_expired, expired, file_date,
    parse_file_date, delete_object, remove_object.
  destruct (endswith key ".sql.gz"); cbn.
  - unfold_effects.
    destruct (strptime_Ymd (file_date_str (path_name key))) as [d|]; cbn.
    + destruct (stamp_lt (midnight d) c); cbn.
      * destruct (delete_fails env key); cbn; done.
      * by rewrite !app_nil_r, world_eta.
    + by rewrite app_nil_r.
  - by rewrite !app_nil_r, world_eta.
Qed.

Lemma oss_loop_ok (c : stamp) (keys : list string) (w : world) :
  for_each (oss_body c) keys w
  = (Ok (),
     mkWorld (local w) (sweep_map (oss_removed env c) keys (remote w))
       (log w ++ flat_map (oss_entries env c) keys)
       (trace w ++ flat_map (oss_calls c) keys)).
Proof.
  revert w. induction keys as [|key keys IH]; intros w.
  - simpl. by rewrite !app_nil_r, world_eta.
  - rewrite for_each_cons. erewrite bind_Ok; [| apply oss_body_ok].
    rewrite IH. simpl. by rewrite <- !app_assoc.
Qed.

Lemma keys_under_spec (prefix : string) (m : gmap string bytes) (k : string) :
  k ∈ keys_under prefix m ↔ is_Some (m !! k) ∧ startswith prefix k = true.
Proof.
  unfold keys_under. rewrite list_elem_of_filter, list_elem_of_fmap.
  rewrite Is_true_true. split.
  - intros [H [[k' v] [-> Hkv]]]. apply elem_of_map_to_list in Hkv.
    simpl in *. split; [eauto | done].
  - intros [[v Hv] H]. split; [done |]. exists (k, v).
    split; [done | by apply elem_of_map_to_list].
Qed.

Lemma clean_oss_backups_ok (c : stamp) (w : world) :
  minus_days (now env) (keep_oss_days CONFIG) = Some c →
  let keys := keys_under (oss_prefix CONFIG) (remote w) in
  clean_oss_backups CONFIG env w
  = (Ok (),
     mkWorld (local w) (sweep_map (oss_removed env c) keys (remote w))
       (log w ++ flat_map (oss_entries env c) keys)
       (trace w ++ EvListObjects (oss_prefix CONFIG)
          :: flat_map (oss_calls c) keys)).
Proof.
  intros Hc keys. unfold clean_oss_backups, cutoff. rewrite Hc.
  rewrite bind_eq. cbn [mret M_ret]. rewrite bind_eq. cbn [list_objects].
  rewrite oss_loop_ok. cbn. by rewrite <- app_assoc.
Qed.

(** The remote sweep raises only when its cutoff cannot be computed. *)
Lemma clean_oss_backups_overflow (w : world) :
  minus_days (now env) (keep_oss_days CONFIG) = None →
  clean_oss_backups CONFIG env w = (Raise OverflowError, w).
Proof.
  intros Hc. unfold clean_oss_backups, cutoff. by rewrite Hc.
Qed.

End Sweeps.

(** *** The run *)

Section Execute.
Variable gzip_compress : bytes → bytes.
Variable CONFIG : Config.
Variable self : BackupManager.
Variable env : Env.

Lemma respects_steps : respects (steps gzip_compress CONFIG self env).
Proof.
  unfold steps. apply respects_bind; [apply respects_run_mysqldump |].
  intros file. apply respects_bind; [apply respects_upload_to_oss |].
  intros _. apply respects_clean_local_backups.
Qed.

(** [execute] is its three steps, then the closing log entry. *)
Lemma execute_eq (w : world) :
  execute gzip_compress CONFIG self env w
  = match steps gzip_compress CONFIG self env w with
    | (Ok _, w1) => (Ok true, (logger InfoDone w1).2)
    | (Raise e, w1) => (Ok false, (logger (CriticalAborted e) w1).2)
    end.
Proof.
  unfold execute, steps, try_except. rewrite !bind_eq.
  destruct (run_mysqldump _ _ _ _ w) as [[file|e] w1]; [| done].
  rewrite !bind_eq.
  destruct (upload_to_oss _ _ file w1) as [[[]|e] w2]; [| done].
  rewrite !bind_eq.
  destruct (clean_local_backups _ _ w2) as [[[]|e] w3]; done.
Qed.

Lemma execute_returns (w : world) :
  ∃ success w', execute gzip_compress CONFIG self env w = (Ok success, w').
Proof.
  rewrite execute_eq. destruct (steps _ _ _ _ w) as [[?|?] ?]; eauto.
Qed.

Lemma steps_Ok_inv (w w' : world) :
  steps gzip_compress CONFIG self env w = (Ok (), w') →
  ∃ file w1 w2,
    run_mysqldump gzip_compress CONFIG self env w = (Ok file, w1)
    ∧ upload_to_oss CONFIG env file w1 = (Ok (), w2)
    ∧ clean_local_backups CONFIG env w2 = (Ok (), w').
Proof.
  unfold steps. intros H.
  apply bind_Ok_inv in H as (file & w1 & H1 & H).
  apply bind_Ok_inv in H as ([] & w2 & H2 & H). eauto 10.
Qed.

End Execute.

(** Closes [x ∉ l] for a list written out. *)
Ltac absent :=
  let H := fresh in
  intros H; repeat (apply elem_of_cons in H as [H|H]; [discriminate H |]);
  by apply elem_of_nil in H.


(** *** Names and log entries *)

Lemma elem_of_flat_map {A B : Type} (f : A → list B) (l : list A) (y : B) :
  y ∈ flat_map f l ↔ ∃ x, x ∈ l ∧ y ∈ f x.
Proof.
  rewrite list_elem_of_In, in_flat_map.
  by setoid_rewrite list_elem_of_In.
Qed.

(** The sweeps read the date of a well-formed name back, whatever the
    database is called. *)
Lemma file_date_artifact_name (database : string) (d : date) :
  valid_date d = true → (1000 ≤ year d)%Z →
  file_date (artifact_name database d) = Some d.
Proof.
  intros Hv Hy. unfold file_date, file_date_str, artifact_name.
  change (database +:+ "_" +:+ strftime_Ymd d +:+ ".sql.gz")
    with (database +:+ String "_" (strftime_Ymd d +:+ ".sql.gz")).
  rewrite split_last_app.
  - rewrite remove_all_sql_gz by (by apply strftime_Ymd_no_sep).
    by apply strptime_strftime.
  - rewrite contains_app, strftime_Ymd_no_sep by done. done.
Qed.

Lemma path_name_artifact_name (database : string) (d : date) :
  contains "/" database = false →
  path_name (artifact_name database d) = artifact_name database d.
Proof.
  intros Hdb. apply split_last_absent. unfold artifact_name.
  rewrite !contains_app, Hdb, strftime_Ymd_no_sep by done. done.
Qed.

Lemma endswith_artifact_name (database : string) (d : date) :
  endswith (artifact_name database d) ".sql.gz" = true.
Proof.
  unfold artifact_name. rewrite <- !append_assoc. apply endswith_app.
Qed.

Lemma well_named_endswith (name : string) :
  well_named name → endswith name ".sql.gz" = true.
Proof. intros (database & d & _ & ->). apply endswith_artifact_name. Qed.

(** Every entry the remote sweep logs is about the key at hand, and that
    key ends in [.sql.gz]. *)
Lemma oss_entries_key (env : Env) (c : stamp) (key : string) (e : log_entry) :
  e ∈ oss_entries env c key →
  oss_entry_key e = Some key ∧ endswith key ".sql.gz" = true.
Proof.
  unfold oss_entries. destruct (endswith key ".sql.gz"); cbn.
  - intros H. split; [| done]. repeat case_match;
      solve [by apply elem_of_nil in H
            | apply elem_of_cons in H as [->|H]; [done | by apply elem_of_nil in H]].
  - intros H. by apply elem_of_nil in H.
Qed.



Lemma local_entries_name (env : Env) (c : stamp) (name : string) (e : log_entry) :
  e ∈ local_entries env c name → local_entry_name e = Some name.
Proof.
  unfold local_entries. intros H. repeat case_match;
    solve [by apply elem_of_nil in H
          | apply elem_of_cons in H as [->|H]; [done | by apply elem_of_nil in H]].
Qed.

Lemma local_calls_not_put (env : Env) (c : stamp) (names : list string) :
  List.filter is_put (flat_map (local_calls env c) names) = [].
Proof.
  induction names as [|f names IH]; [done |]. cbn [flat_map].
  rewrite List.filter_app, IH, app_nil_r.
  unfold local_calls. by destruct (local_removed env c f).
Qed.

End ScriptFacts.

(** ** Facts about a whole run *)
Module RunFacts.
Import Text TextFacts Calendar CalendarFacts Effects EffectFacts Script Policy
  ScriptFacts.

(** [execute] returns [True] exactly when every step works: the dump
    exits with 0, the compression and the unlink of the raw file work, the
    upload works, the cutoff of the sweep exists and every name the sweep
    lists parses. *)
Lemma execute_succeeds_iff (gzip_compress : bytes → bytes) (CONFIG : Config)
    (self : BackupManager) (env : Env) (w : world) :
  (execute gzip_compress CONFIG self env w).1 = Ok true
  ↔ ∃ out err c,
      dump env = DumpExit 0 out err ∧ gzip env = GzipOk
      ∧ unlink_fails env (dump_file_name CONFIG self) = false
      ∧ put env = PutOk
      ∧ minus_days (now env) (keep_local_days CONFIG) = Some c
      ∧ Forall (fun f => is_Some (file_date f))
          (sql_gz_files (<[gz_file_name CONFIG self := gzip_compress out]>
                           (delete (dump_file_name CONFIG self) (local w)))).
Proof.
  rewrite execute_eq. split.
  - destruct (steps gzip_compress CONFIG self env w) as [[[]|e] w3] eqn:Hs;
      [intros _ | discriminate].
    apply steps_Ok_inv in Hs as (file & w1 & w2 & Hbackup & Hup & Hclean).
    destruct (run_mysqldump_Ok_inv _ _ _ _ _ _ _ Hbackup)
      as (out & err & Hd & Hg & Hu).
    rewrite (run_mysqldump_ok _ _ _ _ _ _ _ Hd Hg Hu) in Hbackup.
    injection Hbackup as <- <-.
    destruct (upload_to_oss_Ok_inv _ _ _ _ _ Hup) as [Hp _].
    erewrite upload_to_oss_ok in Hup; [| done | apply lookup_insert_eq].
    injection Hup as <-.
    destruct (clean_local_backups_Ok_inv _ _ _ _ Hclean) as (c & Hc & Hparse).
    by exists out, err, c.
  - intros (out & err & c & Hd & Hg & Hu & Hp & Hc & Hparse). unfold steps.
    erewrite bind_Ok; [| by eapply run_mysqldump_ok].
    erewrite bind_Ok; [| eapply upload_to_oss_ok; [done | apply lookup_insert_eq]].
    by erewrite clean_local_backups_ok.
Qed.

(** The constructor leaves the stores and the log alone. *)
Lemma construct_ok (CONFIG : Config) (clock : datetime) (w : world) :
  construct InitOk CONFIG clock w
  = (Ok (init clock),
     mkWorld (local w) (remote w) (log w)
       (trace w ++ [EvMkdir (local_backup_dir CONFIG)])).
Proof. reflexivity. Qed.

Lemma construct_failed (startup : init_outcome) (CONFIG : Config)
    (clock : datetime) (w : world) :
  startup ≠ InitOk →
  ∃ e, construct startup CONFIG clock w
       = (Raise e,
          mkWorld (local w) (remote w) (log w)
            (trace w ++ [EvMkdir (local_backup_dir CONFIG)])).
Proof. intros H. destruct startup; [done | by eexists..]. Qed.

End RunFacts.

(** ** The properties of the run *)
Module Properties.
Import Text TextFacts Calendar CalendarFacts Effects EffectFacts Script Policy
  ScriptFacts RunFacts Samples.

(** C4. When [mysqldump] exits non-zero (and the raw file can be
    unlinked), the run returns [False]; the raw dump file is gone, the
    directory is otherwise as before, so no compressed file was created;
    the bucket is untouched and the only calls made are the opening of the
    raw file, the dump and the unlink: no upload is attempted. *)
Theorem dump_failure_aborts_run (gzip_compress : bytes → bytes)
    (CONFIG : Config) (self : BackupManager) (env : Env) (w : world)
    (rc : Z) (out : bytes) (err : string) :
  dump env = DumpExit rc out err → rc ≠ 0%Z →
  unlink_fails env (dump_file_name CONFIG self) = false →
  let dump_file := dump_file_name CONFIG self in
  let gz_file := gz_file_name CONFIG self in
  ∃ w', execute gzip_compress CONFIG self env w = (Ok false, w')
    ∧ local w' = delete dump_file (local w)
    ∧ local w' !! dump_file = None
    ∧ local w' !! gz_file = local w !! gz_file
    ∧ remote w' = remote w
    ∧ trace w' = trace w ++ [EvOpenWrite dump_file;
                             EvMysqldump (mysqldump_cmd CONFIG);
                             EvUnlink dump_file]
    ∧ log w' = log w ++ [ErrorBackupFailed (RuntimeError err);
                         CriticalAborted (RuntimeError err)].
Proof.
  intros Hd Hrc Hu dump_file gz_file. eexists.
  rewrite execute_eq. unfold steps.
  erewrite bind_Raise; [| by eapply run_mysqldump_dump_failed].
  cbn. split; [reflexivity |].
  repeat split.
  - apply lookup_delete_eq.
  - apply lookup_delete_ne. symmetry. apply gz_file_name_ne.
  - by rewrite <- app_assoc.
Qed.

Lemma dump_failure_aborts_run_witness :
  let env := with_dump (DumpExit 2 [] "Access denied") (fair noon_march_10) in
  let w := stores ["shop_20240309.sql.gz"] [] in
  ∃ w', execute gzip_stub (config 3 30) (init noon_march_10) env w = (Ok false, w')
    ∧ local w' !! "shop_20240310.sql" = None
    ∧ local w' !! "shop_20240310.sql.gz" = None
    ∧ remote w' = ∅.
Proof.
  intros env w.
  destruct (dump_failure_aborts_run gzip_stub (config 3 30) (init noon_march_10)
              env w 2 [] "Access denied")
    as (w' & He & _ & Hraw & Hgz & Hr & _); [reflexivity | lia | reflexivity |].
  exists w'. split; [exact He |]. split; [exact Hraw |].
  split; [exact (eq_trans Hgz eq_refl) | exact (eq_trans Hr eq_refl)].
Defined.

(** C10. When the compression fails with an I/O error after writing part
    of its output (the dump itself succeeded, the raw file can be
    unlinked), the backup step raises that error; its handler has removed
    the raw dump file, and the part of the [.sql.gz] file that was written
    stays in the directory. *)
Theorem compression_failure_loses_dump (gzip_compress : bytes → bytes)
    (CONFIG : Config) (self : BackupManager) (env : Env) (w : world)
    (out written : bytes) (err : string) :
  dump env = DumpExit 0 out err → gzip env = GzipIOError written →
  unlink_fails env (dump_file_name CONFIG self) = false →
  let dump_file := dump_file_name CONFIG self in
  let gz_file := gz_file_name CONFIG self in
  ∃ w', run_mysqldump gzip_compress CONFIG self env w = (Raise (OSError gz_file), w')
    ∧ local w' = <[gz_file := written]> (delete dump_file (local w))
    ∧ local w' !! dump_file = None
    ∧ local w' !! gz_file = Some written
    ∧ new_calls w w' = [EvOpenWrite dump_file; EvMysqldump (mysqldump_cmd CONFIG);
                        EvClosed dump_file; EvOpenWrite gz_file;
                        EvUnlink dump_file].
Proof.
  intros Hd Hg Hu dump_file gz_file. eexists.
  split; [by eapply run_mysqldump_gzip_failed |]. cbn.
  split; [done |]. split; [| split].
  - rewrite lookup_insert_ne by apply gz_file_name_ne. apply lookup_delete_eq.
  - apply lookup_insert_eq.
  - unfold new_calls. cbn. by rewrite drop_app_length.
Qed.

Lemma compression_failure_loses_dump_witness :
  let env := with_gzip (GzipIOError [Byte.x1f]) (fair noon_march_10) in
  ∃ w', run_mysqldump gzip_stub (config 3 30) (init noon_march_10) env (stores [] [])
        = (Raise (OSError "shop_20240310.sql.gz"), w')
    ∧ local w' !! "shop_20240310.sql" = None
    ∧ local w' !! "shop_20240310.sql.gz" = Some [Byte.x1f].
Proof.
  intros env.
  destruct (compression_failure_loses_dump gzip_stub (config 3 30)
              (init noon_march_10) env (stores [] []) sql_text [Byte.x1f] "")
    as (w' & He & _ & Hraw & Hgz & _); [reflexivity..|].
  exists w'. split; [exact He |]. split; [exact Hraw | exact Hgz].
Defined.

(** C1, as the code has it.  When the upload fails after the dump and the
    compression succeeded, the run returns [False]; the compressed file of
    the day is in the directory and nothing else of the directory changed
    (but for the raw file), the bucket is untouched, and the last call of
    the run is the upload: the local sweep is not executed. *)
Theorem upload_failure_keeps_archive_skips_sweep (gzip_compress : bytes → bytes)
    (CONFIG : Config) (self : BackupManager) (env : Env) (w : world)
    (out : bytes) (err : string) :
  dump env = DumpExit 0 out err → gzip env = GzipOk →
  unlink_fails env (dump_file_name CONFIG self) = false →
  put env ≠ PutOk →
  let dump_file := dump_file_name CONFIG self in
  let gz_file := gz_file_name CONFIG self in
  ∃ w', execute gzip_compress CONFIG self env w = (Ok false, w')
    ∧ local w' !! gz_file = Some (gzip_compress out)
    ∧ local w' = <[gz_file := gzip_compress out]> (delete dump_file (local w))
    ∧ remote w' = remote w
    ∧ new_calls w w'
      = [EvOpenWrite dump_file; EvMysqldump (mysqldump_cmd CONFIG);
         EvClosed dump_file; EvOpenWrite gz_file; EvClosed gz_file;
         EvUnlink dump_file;
         EvPutObject (oss_prefix CONFIG +:+ path_name gz_file)]
    ∧ EvGlob "*.sql.gz" ∉ new_calls w w'.
Proof.
  intros Hd Hg Hu Hp dump_file gz_file.
  rewrite execute_eq. unfold steps.
  erewrite bind_Ok; [| by eapply run_mysqldump_ok].
  destruct (upload_to_oss_failed CONFIG env
              (mkWorld (<[gz_file := gzip_compress out]> (delete dump_file (local w)))
                 (remote w) (log w ++ [InfoLocalBackupOk gz_file])
                 (trace w ++ [EvOpenWrite dump_file;
                              EvMysqldump (mysqldump_cmd CONFIG);
                              EvClosed dump_file; EvOpenWrite gz_file;
                              EvClosed gz_file; EvUnlink dump_file]))
              gz_file Hp) as (e & entries & Hup).
  erewrite bind_Raise; [| exact Hup]. eexists. split; [reflexivity |].
  cbn. split; [apply lookup_insert_eq |]. split; [done |]. split; [done |].
  unfold new_calls. cbn. rewrite <- app_assoc, drop_app_length. cbn.
  split; [done | absent].
Qed.

Lemma upload_failure_keeps_archive_skips_sweep_witness :
  let env := with_put PutOssError (fair noon_march_10) in
  let w := stores ["shop_20240101.sql.gz"] [] in
  ∃ w', execute gzip_stub (config 3 30) (init noon_march_10) env w = (Ok false, w')
    ∧ local w' !! "shop_20240310.sql.gz" = Some (gzip_stub sql_text)
    ∧ remote w' = ∅
    ∧ EvGlob "*.sql.gz" ∉ new_calls w w'.
Proof.
  intros env w.
  destruct (upload_failure_keeps_archive_skips_sweep gzip_stub (config 3 30)
              (init noon_march_10) env w sql_text "")
    as (w' & He & Hgz & _ & Hr & _ & Hglob); [reflexivity.. | discriminate |].
  exists w'. split; [exact He |]. split; [exact Hgz |].
  split; [exact (eq_trans Hr eq_refl) | exact Hglob].
Defined.

(** C1 as stated fails: the upload fails after a successful compression,
    the compressed file of the day exists, but the run ends without the
    local sweep; the file of 2024-01-01, which is before the cutoff of the
    sweep, is still in the directory. *)
Lemma upload_failure_sweep_not_run :
  let env := with_put PutOssError (fair noon_march_10) in
  let w := stores ["shop_20240101.sql.gz"] [] in
  let r := execute gzip_stub (config 3 30) (init noon_march_10) env w in
  r.1 = Ok false
  ∧ is_Some (local r.2 !! "shop_20240310.sql.gz")
  ∧ ¬ (EvGlob "*.sql.gz" ∈ trace r.2)
  ∧ expired (738952, 43200000000)%Z "shop_20240101.sql.gz" = true
  ∧ minus_days (now env) 3 = Some (738952, 43200000000)%Z
  ∧ is_Some (local r.2 !! "shop_20240101.sql.gz").
Proof.
  intros env w r.
  split; [vm_compute; reflexivity |].
  split; [vm_compute; eauto |].
  split; [vm_compute trace; absent |].
  split; [vm_compute; reflexivity |].
  split; [vm_compute; reflexivity |].
  vm_compute; eauto.
Qed.

(** C6, as the code has it.  Whenever the backup step returns an artifact,
    it is the compressed file of the day, completely written, and the raw
    dump file was unlinked right after the compressed file was closed and
    not before; when the compression fails the step raises, so it never
    reports an artifact. *)
Theorem raw_dump_removed_after_archive_closed (gzip_compress : bytes → bytes)
    (CONFIG : Config) (self : BackupManager) (env : Env) (w : world) :
  let dump_file := dump_file_name CONFIG self in
  let gz_file := gz_file_name CONFIG self in
  let r := run_mysqldump gzip_compress CONFIG self env w in
  (∀ name, r.1 = Ok name →
     name = gz_file
     ∧ (∃ out, local r.2 !! gz_file = Some (gzip_compress out))
     ∧ local r.2 !! dump_file = None
     ∧ ∃ calls, new_calls w r.2 = calls ++ [EvClosed gz_file; EvUnlink dump_file]
                ∧ EvUnlink dump_file ∉ calls)
  ∧ (gzip env ≠ GzipOk → ∃ e, r.1 = Raise e).
Proof.
  intros dump_file gz_file r. subst r.
  destruct (run_mysqldump gzip_compress CONFIG self env w) as [res w'] eqn:Hrun.
  split.
  - intros name Hres. cbn in Hres. subst res.
    destruct (run_mysqldump_Ok_inv _ _ _ _ _ _ _ Hrun) as (out & err & Hd & Hg & Hu).
    rewrite (run_mysqldump_ok _ _ _ _ _ _ _ Hd Hg Hu) in Hrun.
    injection Hrun as <- <-. cbn. split; [done |].
    split; [exists out; apply lookup_insert_eq |].
    split.
    { rewrite lookup_insert_ne by apply gz_file_name_ne. apply lookup_delete_eq. }
    exists [EvOpenWrite dump_file; EvMysqldump (mysqldump_cmd CONFIG);
            EvClosed dump_file; EvOpenWrite gz_file].
    unfold new_calls. cbn. rewrite drop_app_length. split; [done |].
    intros H. repeat (apply elem_of_cons in H as [H|H]; [discriminate H |]).
    by apply elem_of_nil in H.
  - intros Hg. cbn. destruct res as [name|e]; [| by eexists].
    destruct (run_mysqldump_Ok_inv _ _ _ _ _ _ _ Hrun) as (? & ? & _ & Hg' & _).
    done.
Qed.

(** C6 as stated fails: the compression breaks off after one byte; the raw
    dump file is unlinked all the same, and the compressed file was never
    closed: what is left of it is the one byte. *)
Lemma raw_dump_removed_without_archive :
  let env := with_gzip (GzipIOError [Byte.x1f]) (fair noon_march_10) in
  let r := run_mysqldump gzip_stub (config 3 30) (init noon_march_10) env
             (stores [] []) in
  r.1 = Raise (OSError "shop_20240310.sql.gz")
  ∧ EvUnlink "shop_20240310.sql" ∈ trace r.2
  ∧ ¬ (EvClosed "shop_20240310.sql.gz" ∈ trace r.2)
  ∧ local r.2 !! "shop_20240310.sql" = None
  ∧ local r.2 !! "shop_20240310.sql.gz" = Some [Byte.x1f].
Proof.
  intros env r.
  split; [vm_compute; reflexivity |].
  split; [vm_compute trace; do 4 right; left |].
  split; [vm_compute trace; absent |].
  split; vm_compute; reflexivity.
Qed.

(** C7. The exit status is 0 or 1.  It is 0 exactly when the run logged
    its closing entry [InfoDone], and exactly when everything worked: the
    module and its configuration load, no required variable is missing,
    the constructor
    returns, the dump exits with 0, the compression, the unlink of the raw
    file and the upload work, and the local sweep runs to its end (its
    cutoff exists and every name it lists parses).  It is 1 when the
    module or its configuration does not load or a required variable is
    missing, in which case neither store was touched and no call was made,
    when the
    constructor fails, and whenever the dump, the compression or the
    upload fails. *)
Theorem exit_status_reports_run (gzip_compress : bytes → bytes)
    (int_of_str : string → option Z) (path_text : string → string)
    (environ : gmap string string) (loading : load_outcome)
    (startup : init_outcome) (clock : datetime) (env : Env) (w : world) :
  let r := main int_of_str path_text gzip_compress environ loading startup
             clock env w in
  (r.1 = 0 ∨ r.1 = 1)%Z
  ∧ (r.1 = 0%Z ↔ InfoDone ∈ new_entries w r.2)
  ∧ (r.1 = 0%Z
     ↔ ∃ CONFIG out err c,
         loading = LoadOk
         ∧ load_config int_of_str path_text environ = Ok CONFIG
         ∧ List.filter (unset environ) required_envs = []
         ∧ startup = InitOk
         ∧ dump env = DumpExit 0 out err ∧ gzip env = GzipOk
         ∧ unlink_fails env (dump_file_name CONFIG (init clock)) = false
         ∧ put env = PutOk
         ∧ minus_days (now env) (keep_local_days CONFIG) = Some c
         ∧ Forall (fun f => is_Some (file_date f))
             (sql_gz_files
                (<[gz_file_name CONFIG (init clock) := gzip_compress out]>
                   (delete (dump_file_name CONFIG (init clock)) (local w)))))
  ∧ (loading = LoadError
     ∨ (∃ e, load_config int_of_str path_text environ = Raise e)
     ∨ List.filter (unset environ) required_envs ≠ [] →
     r.1 = 1%Z ∧ local r.2 = local w ∧ remote r.2 = remote w
     ∧ trace r.2 = trace w)
  ∧ (startup ≠ InitOk → r.1 = 1%Z)
  ∧ ((∀ out err, dump env ≠ DumpExit 0 out err) → r.1 = 1%Z)
  ∧ (gzip env ≠ GzipOk → r.1 = 1%Z)
  ∧ (put env ≠ PutOk → r.1 = 1%Z).
Proof.
  intros r. subst r. unfold main.
  assert (∀ P : Prop, ((1%Z, w).1 = 0%Z ↔ P) ↔ ¬ P) as Hone.
  { intros P. cbn. split; [intros [_ H] HP; by specialize (H HP) |].
    intros HP. split; [done | by intros ?]. }
  assert (InfoDone ∉ new_entries w w) as Hnone.
  { unfold new_entries. rewrite drop_all. by intros H%elem_of_nil. }
  destruct loading.
  2:{ split; [by right |]. split; [apply Hone; exact Hnone |].
      split; [apply Hone; by intros (? & ? & ? & ? & ? & _) |].
      repeat split; done. }
  destruct (load_config int_of_str path_text environ) as [CONFIG|e0] eqn:Hcfg.
  2:{ split; [by right |]. split; [apply Hone; exact Hnone |].
      split; [apply Hone; by intros (? & ? & ? & ? & _ & ? & _) |].
      repeat split; done. }
  destruct (List.filter (unset environ) required_envs) as [|var missing] eqn:Hm.
  2:{ cbn. split; [by right |]. split.
      { split; [done |]. unfold new_entries. cbn. rewrite drop_app_length.
        intros H. apply elem_of_cons in H as [H|H]; [done | by apply elem_of_nil in H]. }
      split; [split; [done | by intros (? & ? & ? & ? & _ & _ & ? & _)] |].
      repeat split; done. }
  assert (startup = InitOk ∨ startup ≠ InitOk) as [->|Hinit]
    by (destruct startup; [by left | by right..]).
  2:{ destruct (construct_failed startup CONFIG clock w Hinit) as [e ->].
      cbn. split; [by right |]. split.
      { split; [done |]. unfold new_entries. cbn. by rewrite drop_all; intros H%elem_of_nil. }
      split; [split; [done | by intros (? & ? & ? & ? & _ & _ & _ & ? & _)] |].
      split; [by intros [?|[[? ?]|?]] |]. repeat split; done. }
  rewrite construct_ok.
  set (w0 := mkWorld (local w) (remote w) (log w)
               (trace w ++ [EvMkdir (local_backup_dir CONFIG)])).
  pose proof (execute_succeeds_iff gzip_compress CONFIG (init clock) env w0)
    as Hiff.
  rewrite execute_eq in Hiff |- *.
  pose proof (respects_steps gzip_compress CONFIG (init clock) env w0)
    as (_ & _ & entries & Hl & Hne).
  destruct (steps gzip_compress CONFIG (init clock) env w0) as [[[]|e] w1] eqn:Hs;
    cbn in *.
  - destruct Hiff as [Hiff _].
    destruct (Hiff eq_refl) as (out & err & c & Hd & Hg & Hu & Hp & Hc & Hparse).
    split; [by left |]. split.
    { split; [intros _ | done]. unfold new_entries. cbn.
      rewrite Hl, <- app_assoc, drop_app_length.
      apply elem_of_app. right. by left. }
    split; [split; [intros _; by exists CONFIG, out, err, c | done] |].
    split; [by intros [?|[[? ?]|?]] |]. split; [done |].
    split; [intros H; by destruct (H out err) |].
    split; intros H; done.
  - split; [by right |]. split.
    { split; [done |]. unfold new_entries. cbn.
      rewrite Hl, <- app_assoc, drop_app_length.
      intros [H|H]%elem_of_app.
      - eapply Forall_forall in Hne; [| exact H]. done.
      - apply elem_of_cons in H as [H|H]; [done | by apply elem_of_nil in H]. }
    split.
    { split; [done |].
      intros (C' & out & err & c & _ & HC & _ & _ & Hd & Hg & Hu & Hp & Hc & Hparse).
      injection HC as <-. destruct Hiff as [_ Hiff].
      by discriminate Hiff; exists out, err, c. }
    split; [by intros [?|[[? ?]|?]] |]. repeat split; done.
Qed.

(** The status 0 of C7 is reached: with the required variables set and an
    outside world in which every call works, the script exits with 0, the
    file and the object of the day are in place and the file past the
    cutoff is gone. *)
Example main_exits_zero :
  let w := stores ["shop_20240101.sql.gz"] [] in
  let r := main int_stub path_stub gzip_stub environ LoadOk InitOk
             noon_march_10 (fair noon_march_10) w in
  load_config int_stub path_stub environ = Ok (config 3 30)
  ∧ r.1 = 0%Z
  ∧ local r.2 = {[ "shop_20240310.sql.gz" := gzip_stub sql_text ]}
  ∧ remote r.2 = {[ "mysql-backups/shop_20240310.sql.gz" := gzip_stub sql_text ]}
  ∧ last (log r.2) = Some InfoDone.
Proof.
  intros w r. repeat split; vm_compute; reflexivity.
Qed.

(** An integer setting that [int] rejects ends the script while the
    module is loaded: status 1, and the world is as before, although every
    required variable is set. *)
Example bad_integer_setting_exits_one :
  let w := stores ["shop_20240101.sql.gz"] [] in
  main int_stub path_stub gzip_stub (<["KEEP_LOCAL_DAYS" := "abc"]> environ)
    LoadOk InitOk noon_march_10 (fair noon_march_10) w
  = (1%Z, w).
Proof. vm_compute. reflexivity. Qed.

(** C8. The default run never removes an object from the bucket and never
    makes a call of the remote cleanup: every key of the bucket is still
    there after [execute], and neither a listing nor a deletion is among
    its calls.  The cleanup is a method of its own, and it does delete when
    it is called. *)
Theorem default_run_never_deletes_remote (gzip_compress : bytes → bytes)
    (CONFIG : Config) (self : BackupManager) (env : Env) (w : world) :
  let w' := (execute gzip_compress CONFIG self env w).2 in
  (∀ key, is_Some (remote w !! key) → is_Some (remote w' !! key))
  ∧ Forall (fun ev => is_remote_cleanup ev = false) (new_calls w w')
  ∧ (let w0 := stores [] ["mysql-backups/shop_20240101.sql.gz"] in
     let swept := (clean_oss_backups (config 3 30) (fair noon_march_10) w0).2 in
     is_Some (remote w0 !! "mysql-backups/shop_20240101.sql.gz")
     ∧ remote swept !! "mysql-backups/shop_20240101.sql.gz" = None).
Proof.
  intros w'. subst w'. rewrite execute_eq.
  pose proof (respects_steps gzip_compress CONFIG self env w)
    as (Hr & (calls & Ht & Hc) & _).
  destruct (steps gzip_compress CONFIG self env w) as [[[]|e] w1]; cbn in *.
  all: split; [exact Hr |]; split;
    [unfold new_calls; cbn; by rewrite Ht, drop_app_length |].
  all: split; [vm_compute; eauto | vm_compute; reflexivity].
Qed.

(** C2, as the code has it.  When the local sweep runs to its end (its
    cutoff [c] = now - keep_local_days exists and every listed name
    parses), a listed file with date [d] is gone afterwards exactly when
    [d] at 00:00:00 is before [c] and its unlink did not fail.  The cutoff
    keeps the time of day of the clock: with keep_local_days = 3 and the
    clock on 2024-03-10, the file of 2024-03-06 is deleted at any time of
    day, and the file of 2024-03-07 is still there only when the sweep runs
    at 00:00:00.000000. *)
Theorem local_sweep_deletes_before_cutoff (CONFIG : Config) (env : Env)
    (w : world) (c : stamp) :
  minus_days (now env) (keep_local_days CONFIG) = Some c →
  Forall (fun f => is_Some (file_date f)) (sql_gz_files (local w)) →
  ∃ w', clean_local_backups CONFIG env w = (Ok (), w')
    ∧ (∀ f d, f ∈ sql_gz_files (local w) → file_date f = Some d →
         (local w' !! f = None
          ↔ stamp_lt (midnight d) c = true ∧ unlink_fails env f = false))
    ∧ (keep_local_days CONFIG = 3%Z → dt_date (now env) = mkDate 2024 3 10 →
       (0 ≤ dt_micro (now env))%Z →
       ∀ f, f ∈ sql_gz_files (local w) → unlink_fails env f = false →
         (file_date f = Some (mkDate 2024 3 6) → local w' !! f = None)
         ∧ (file_date f = Some (mkDate 2024 3 7) →
            (is_Some (local w' !! f) ↔ dt_micro (now env) = 0%Z))).
Proof.
  intros Hc Hp. eexists. split; [by apply clean_local_backups_ok |]. cbn.
  assert (∀ f d, f ∈ sql_gz_files (local w) → file_date f = Some d →
            (sweep_map (local_removed env c) (sql_gz_files (local w)) (local w) !! f
             = None
             ↔ stamp_lt (midnight d) c = true ∧ unlink_fails env f = false))
    as Hiff.
  { intros f d Hf Hd. rewrite lookup_sweep_map.
    apply sql_gz_files_spec in Hf as Hf'. destruct Hf' as [[data Hdata] _].
    assert (local_removed env c f = true
            ↔ stamp_lt (midnight d) c = true ∧ unlink_fails env f = false) as Hrm.
    { unfold local_removed, expired.
      by rewrite Hd, andb_true_iff, negb_true_iff. }
    destruct (decide _) as [[_ H]|H].
    - split; [intros _; by apply Hrm | done].
    - rewrite Hdata. split; [done |]. intros H'. destruct H.
      split; [done | by apply Hrm]. }
  split; [exact Hiff |].
  intros Hk Hdate Hmicro f Hf Hu.
  unfold minus_days in Hc. rewrite Hk, Hdate in Hc.
  change (toordinal (mkDate 2024 3 10) - 3)%Z with 738952%Z in Hc.
  cbn in Hc. injection Hc as <-. split.
  - intros Hd. apply (Hiff f _ Hf Hd). by split.
  - intros Hd. specialize (Hiff f _ Hf Hd).
    rewrite <- not_eq_None_Some, Hiff.
    unfold stamp_lt, midnight. cbn.
    destruct (Z.ltb_spec 0 (dt_micro (now env))); split; intros H'.
    + destruct H'. by split.
    + lia.
    + lia.
    + by intros [? _].
Qed.

Lemma local_sweep_deletes_before_cutoff_witness :
  let w := stores ["shop_20240306.sql.gz"; "shop_20240307.sql.gz"; "notes.txt"] [] in
  ∃ w', clean_local_backups (config 3 30) (fair midnight_march_10) w = (Ok (), w')
    ∧ local w' !! "shop_20240306.sql.gz" = None
    ∧ is_Some (local w' !! "shop_20240307.sql.gz").
Proof.
  intros w.
  destruct (local_sweep_deletes_before_cutoff (config 3 30) (fair midnight_march_10)
              w (738952, 0)%Z)
    as (w' & Hrun & _ & Hday).
  - reflexivity.
  - assert (sql_gz_files (local w)
            = ["shop_20240307.sql.gz"; "shop_20240306.sql.gz"]) as ->
      by (vm_compute; reflexivity).
    repeat constructor; eexists; vm_compute; reflexivity.
  - exists w'. split; [exact Hrun |].
    assert ("shop_20240306.sql.gz" ∈ sql_gz_files (local w)) as H6
      by (apply sql_gz_files_spec; vm_compute; eauto).
    assert ("shop_20240307.sql.gz" ∈ sql_gz_files (local w)) as H7
      by (apply sql_gz_files_spec; vm_compute; eauto).
    split.
    + apply (Hday eq_refl eq_refl ltac:(cbn; lia) _ H6 eq_refl). reflexivity.
    + apply (Hday eq_refl eq_refl ltac:(cbn; lia) _ H7 eq_refl); reflexivity.
Defined.

(** C2 as stated fails: at noon of 2024-03-10, with keep_local_days = 3,
    the file of 2024-03-07 is deleted, although 2024-03-07 is not before
    2024-03-10 minus three days. *)
Lemma boundary_file_deleted_at_noon :
  let w := stores ["shop_20240306.sql.gz"; "shop_20240307.sql.gz"] [] in
  let r := clean_local_backups (config 3 30) (fair noon_march_10) w in
  r.1 = Ok ()
  ∧ file_date "shop_20240307.sql.gz" = Some (mkDate 2024 3 7)
  ∧ (toordinal (mkDate 2024 3 7) <? toordinal march_10 - 3)%Z = false
  ∧ is_Some (local w !! "shop_20240307.sql.gz")
  ∧ local r.2 !! "shop_20240307.sql.gz" = None.
Proof.
  intros w r. repeat split; try (vm_compute; reflexivity). vm_compute. eauto.
Qed.

(** C3, as the code has it.  The remote sweep returns whatever the keys
    are.  A key that does not end in [.sql.gz] is passed over: it stays in
    the bucket and no log entry is about it.  A key that ends in [.sql.gz]
    and whose date does not parse stays in the bucket and is logged as an
    error.  The sweep goes on all the same: every listed key that is due
    and whose deletion does not fail is gone afterwards.  The local sweep
    lists only the names that match [*.sql.gz]: when these parse, it
    returns, and a name that does not end in [.sql.gz] stays in the
    directory and no log entry is about it. *)
Theorem sweeps_skip_foreign_names (CONFIG : Config) (env : Env) (w : world)
    (c : stamp) :
  minus_days (now env) (keep_oss_days CONFIG) = Some c →
  (∃ w', clean_oss_backups CONFIG env w = (Ok (), w')
     ∧ local w' = local w
     ∧ (∀ key, endswith key ".sql.gz" = false →
          remote w' !! key = remote w !! key
          ∧ ∀ e, e ∈ new_entries w w' → oss_entry_key e ≠ Some key)
     ∧ (∀ key, key ∈ keys_under (oss_prefix CONFIG) (remote w) →
          endswith key ".sql.gz" = true → file_date (path_name key) = None →
          remote w' !! key = remote w !! key
          ∧ ErrorOssFailed key (ValueError (file_date_str (path_name key)))
            ∈ new_entries w w')
     ∧ (∀ key, key ∈ keys_under (oss_prefix CONFIG) (remote w) →
          oss_removed env c key = true → remote w' !! key = None))
  ∧ (∀ c', minus_days (now env) (keep_local_days CONFIG) = Some c' →
       Forall (fun f => is_Some (file_date f)) (sql_gz_files (local w)) →
       ∃ w', clean_local_backups CONFIG env w = (Ok (), w')
         ∧ remote w' = remote w
         ∧ ∀ name, endswith name ".sql.gz" = false →
             local w' !! name = local w !! name
             ∧ ∀ e, e ∈ new_entries w w' → local_entry_name e ≠ Some name).
Proof.
  intros Hc. split.
  - eexists. split; [by apply clean_oss_backups_ok |]. cbn.
    split; [done |]. unfold new_entries. cbn. rewrite drop_app_length.
    split; [| split].
    + intros key Hkey. split.
      * rewrite lookup_sweep_map, decide_False; [done |].
        intros [_ H]. unfold oss_removed, oss_expired in H.
        by rewrite Hkey in H.
      * intros e (k & _ & He)%elem_of_flat_map.
        apply oss_entries_key in He as [-> Hk]. intros [= ->]. congruence.
    + intros key Hin Hkey Hd. split.
      * rewrite lookup_sweep_map, decide_False; [done |].
        intros [_ H]. unfold oss_removed, oss_expired, expired in H.
        by rewrite Hkey, Hd in H.
      * apply elem_of_flat_map. exists key. split; [done |].
        unfold oss_entries. rewrite Hkey, Hd. cbn. by left.
    + intros key Hin Hrm. rewrite lookup_sweep_map. by rewrite decide_True.
  - intros c' Hc' Hp. eexists. split; [by apply clean_local_backups_ok |]. cbn.
    split; [done |]. intros name Hname. unfold new_entries. cbn.
    rewrite drop_app_length. split.
    + rewrite lookup_sweep_map, decide_False; [done |].
      intros [(_ & H & _)%sql_gz_files_spec _]. congruence.
    + intros e (f & Hf & He)%elem_of_flat_map.
      apply local_entries_name in He as ->. intros [= ->].
      apply sql_gz_files_spec in Hf as (_ & H & _). congruence.
Qed.

Lemma sweeps_skip_foreign_names_witness :
  let w := stores ["notes.txt"; "shop_20240101.sql.gz"]
             ["mysql-backups/notes.txt"; "mysql-backups/notes.sql.gz";
              "mysql-backups/shop_20240101.sql.gz"] in
  ∃ w', clean_oss_backups (config 3 30) (fair noon_march_10) w = (Ok (), w')
    ∧ is_Some (remote w' !! "mysql-backups/notes.txt")
    ∧ is_Some (remote w' !! "mysql-backups/notes.sql.gz")
    ∧ ErrorOssFailed "mysql-backups/notes.sql.gz" (ValueError "notes")
      ∈ new_entries w w'
    ∧ remote w' !! "mysql-backups/shop_20240101.sql.gz" = None.
Proof.
  intros w.
  assert (minus_days (now (fair noon_march_10)) (keep_oss_days (config 3 30))
          = Some (738925, 43200000000)%Z) as Hc by (vm_compute; reflexivity).
  destruct (sweeps_skip_foreign_names (config 3 30) (fair noon_march_10) w
              (738925, 43200000000)%Z Hc)
    as [(w' & Hrun & _ & Hforeign & Hbad & Hdue) _].
  exists w'. split; [exact Hrun |].
  assert (∀ key, is_Some (remote w !! key) →
            startswith "mysql-backups/" key = true →
            key ∈ keys_under (oss_prefix (config 3 30)) (remote w)) as Hin
    by (intros key ? ?; apply keys_under_spec; split; assumption).
  assert ("mysql-backups/notes.sql.gz"
          ∈ keys_under (oss_prefix (config 3 30)) (remote w)) as Hk
    by (apply Hin; vm_compute; eauto).
  assert (endswith "mysql-backups/notes.sql.gz" ".sql.gz" = true) as He
    by (vm_compute; reflexivity).
  assert (file_date (path_name "mysql-backups/notes.sql.gz") = None) as Hd
    by (vm_compute; reflexivity).
  split; [| split; [| split]].
  - destruct (Hforeign "mysql-backups/notes.txt") as [Heq _];
      [vm_compute; reflexivity |].
    rewrite Heq. vm_compute. eauto.
  - destruct (Hbad "mysql-backups/notes.sql.gz" Hk He Hd) as [Heq _].
    rewrite Heq. vm_compute. eauto.
  - exact (proj2 (Hbad "mysql-backups/notes.sql.gz" Hk He Hd)).
  - apply Hdue; [apply Hin; vm_compute; eauto | vm_compute; reflexivity].
Defined.

(** C3 as stated fails: the key [mysql-backups/notes.txt], which is not of
    the shape of an artifact name, is met by the remote sweep and passed
    over, but nothing is logged. *)
Lemma foreign_key_skipped_without_log :
  let w := stores [] ["mysql-backups/notes.txt"] in
  let r := clean_oss_backups (config 3 30) (fair noon_march_10) w in
  "mysql-backups/notes.txt" ∈ keys_under "mysql-backups/" (remote w)
  ∧ ¬ well_named "mysql-backups/notes.txt"
  ∧ ¬ well_named (path_name "mysql-backups/notes.txt")
  ∧ r.1 = Ok ()
  ∧ is_Some (remote r.2 !! "mysql-backups/notes.txt")
  ∧ log r.2 = [].
Proof.
  intros w r.
  split; [apply keys_under_spec; vm_compute; eauto |].
  split; [intros H%well_named_endswith; discriminate H |].
  split; [intros H%well_named_endswith; discriminate H |].
  split; [vm_compute; reflexivity |].
  split; [vm_compute; eauto | vm_compute; reflexivity].
Qed.

(** Left out of C3: the local sweep has no handler around the parsing (the
    remote sweep has one).  A file such as [notes.sql.gz] in the directory
    ends the sweep with a [ValueError]; the run, whose upload went through,
    returns [False] and the process exits with status 1. *)
Example local_sweep_stops_at_unparsed_name :
  let w := stores ["notes.sql.gz"] [] in
  (clean_local_backups (config 3 30) (fair noon_march_10) w).1
  = Raise (ValueError "notes")
  ∧ let r := main int_stub path_stub gzip_stub environ LoadOk InitOk
               noon_march_10 (fair noon_march_10) w in
    r.1 = 1%Z
    ∧ is_Some (remote r.2 !! "mysql-backups/shop_20240310.sql.gz")
    ∧ CriticalAborted (ValueError "notes") ∈ log r.2.
Proof.
  split; [vm_compute; reflexivity |].
  split; [vm_compute; reflexivity |].
  split; [vm_compute; eauto |].
  vm_compute log. do 2 right. left.
Qed.




(** What one successful run leaves, when the cutoff of its sweep does not
    pass the midnight of the day of the run. *)
Lemma successful_run (gzip_compress : bytes → bytes) (CONFIG : Config)
    (clock : datetime) (env : Env) (w w' : world) :
  contains "/" (mysql_database CONFIG) = false →
  valid_date (dt_date clock) = true → (1000 ≤ year (dt_date clock))%Z →
  (∀ c, minus_days (now env) (keep_local_days CONFIG) = Some c →
        stamp_lt (midnight (dt_date clock)) c = false) →
  execute gzip_compress CONFIG (init clock) env w = (Ok true, w') →
  let name := artifact_name (mysql_database CONFIG) (dt_date clock) in
  let key := oss_prefix CONFIG +:+ name in
  ∃ out err, dump env = DumpExit 0 out err
    ∧ local w' !! name = Some (gzip_compress out)
    ∧ remote w' = <[key := gzip_compress out]> (remote w)
    ∧ (∀ f, is_Some (local w' !! f) → f = name ∨ is_Some (local w !! f))
    ∧ List.filter is_put (new_calls w w') = [EvPutObject key].
Proof.
  intros Hdb Hv Hy Hkeep Hrun name key.
  rewrite execute_eq in Hrun.
  destruct (steps gzip_compress CONFIG (init clock) env w) as [[[]|e] w3] eqn:Hs;
    [| discriminate Hrun].
  injection Hrun as <-.
  apply steps_Ok_inv in Hs as (file & w1 & w2 & Hbackup & Hup & Hclean).
  destruct (run_mysqldump_Ok_inv _ _ _ _ _ _ _ Hbackup)
    as (out & err & Hd & Hg & Hu).
  rewrite (run_mysqldump_ok _ _ _ _ _ _ _ Hd Hg Hu) in Hbackup.
  injection Hbackup as <- <-. rewrite gz_file_name_init in *. fold name in Hup.
  destruct (upload_to_oss_Ok_inv _ _ _ _ _ Hup) as [Hp _].
  erewrite upload_to_oss_ok in Hup; [| done | apply lookup_insert_eq].
  injection Hup as <-.
  destruct (clean_local_backups_Ok_inv _ _ _ _ Hclean) as (c & Hc & Hparse).
  rewrite (clean_local_backups_ok _ _ c) in Hclean by done.
  injection Hclean as <-. cbn in *.
  set (dump_file := dump_file_name CONFIG (init clock)) in *.
  set (kept := <[name := gzip_compress out]> (delete dump_file (local w))) in *.
  assert (local_removed env c name = false) as Hname.
  { unfold local_removed, expired, name.
    rewrite file_date_artifact_name by done. by rewrite (Hkeep c Hc). }
  exists out, err. split; [done |]. split; [| split; [| split]].
  - rewrite lookup_sweep_map, decide_False by (intros [_ H]; congruence).
    apply lookup_insert_eq.
  - unfold key, name. by rewrite path_name_artifact_name.
  - intros f. rewrite lookup_sweep_map.
    destruct (decide _); [by intros [? ?] |].
    destruct (decide (f = name)) as [|Hne]; [by left |].
    unfold kept. rewrite lookup_insert_ne by done.
    destruct (decide (f = dump_file)) as [->|Hnd].
    + rewrite lookup_delete_eq. by intros [? ?].
    + rewrite lookup_delete_ne by done. by right.
  - unfold new_calls. cbn. rewrite <- !app_assoc, drop_app_length. cbn.
    rewrite local_calls_not_put. unfold key, name.
    by rewrite path_name_artifact_name.
Qed.

(** C5, as the code has it.  Take a configuration whose database name is
    a file name, a clock that shows a date with a four-digit year, and
    two runs on that date that both return [True], each with a sweep whose
    cutoff does not pass the midnight of that date (keep_local_days of 1
    or more does this when the sweep runs on the day of the run).  The
    first run leaves the compressed dump under
    [{database}_{YYYYMMDD}.sql.gz] in the directory and adds no other
    file; it makes one upload, which stores the same bytes under that name
    behind the prefix.  After the second run the directory holds no file
    it did not hold before, the bucket has the same keys, and both
    artifacts carry the second dump. *)
Theorem successful_runs_leave_one_artifact (gzip_compress : bytes → bytes)
    (CONFIG : Config) (clock1 clock2 : datetime) (env1 env2 : Env)
    (w w1 w2 : world) :
  contains "/" (mysql_database CONFIG) = false →
  valid_date (dt_date clock1) = true → (1000 ≤ year (dt_date clock1))%Z →
  dt_date clock2 = dt_date clock1 →
  (∀ c, minus_days (now env1) (keep_local_days CONFIG) = Some c →
        stamp_lt (midnight (dt_date clock1)) c = false) →
  (∀ c, minus_days (now env2) (keep_local_days CONFIG) = Some c →
        stamp_lt (midnight (dt_date clock1)) c = false) →
  execute gzip_compress CONFIG (init clock1) env1 w = (Ok true, w1) →
  execute gzip_compress CONFIG (init clock2) env2 w1 = (Ok true, w2) →
  let name := artifact_name (mysql_database CONFIG) (dt_date clock1) in
  let key := oss_prefix CONFIG +:+ name in
  ∃ out1 err1 out2 err2,
    dump env1 = DumpExit 0 out1 err1 ∧ dump env2 = DumpExit 0 out2 err2
    ∧ local w1 !! name = Some (gzip_compress out1)
    ∧ remote w1 = <[key := gzip_compress out1]> (remote w)
    ∧ (∀ f, is_Some (local w1 !! f) → f = name ∨ is_Some (local w !! f))
    ∧ List.filter is_put (new_calls w w1) = [EvPutObject key]
    ∧ local w2 !! name = Some (gzip_compress out2)
    ∧ remote w2 = <[key := gzip_compress out2]> (remote w)
    ∧ (∀ f, is_Some (local w2 !! f) → is_Some (local w1 !! f))
    ∧ dom (remote w2) = dom (remote w1).
Proof.
  intros Hdb Hv Hy Hsame Hk1 Hk2 Hrun1 Hrun2 name key.
  destruct (successful_run _ _ _ _ _ _ Hdb Hv Hy Hk1 Hrun1)
    as (out1 & err1 & Hd1 & Hl1 & Hr1 & Hnew1 & Hput1).
  rewrite <- Hsame in Hv, Hy, Hk2.
  destruct (successful_run _ _ _ _ _ _ Hdb Hv Hy Hk2 Hrun2)
    as (out2 & err2 & Hd2 & Hl2 & Hr2 & Hnew2 & _).
  rewrite Hsame in Hl2, Hr2, Hnew2. fold name in Hl1, Hl2, Hnew1, Hnew2.
  fold key in Hr1, Hr2, Hput1.
  exists out1, err1, out2, err2.
  repeat (split; [done |]). split; [| split].
  - by rewrite Hr2, Hr1, insert_insert_eq.
  - intros f Hf. destruct (Hnew2 f Hf) as [->|]; [by rewrite Hl1 | done].
  - rewrite Hr2, Hr1, insert_insert_eq. by rewrite !dom_insert_L.
Qed.

Lemma successful_runs_leave_one_artifact_witness :
  let w := stores ["shop_20240309.sql.gz"] [] in
  let env := fair noon_march_10 in
  let w1 := (execute gzip_stub (config 3 30) (init noon_march_10) env w).2 in
  let w2 := (execute gzip_stub (config 3 30) (init noon_march_10) env w1).2 in
  local w2 !! "shop_20240310.sql.gz" = Some (gzip_stub sql_text)
  ∧ remote w2 = {[ "mysql-backups/shop_20240310.sql.gz" := gzip_stub sql_text ]}
  ∧ dom (remote w2) = dom (remote w1).
Proof.
  intros w env w1 w2.
  assert (execute gzip_stub (config 3 30) (init noon_march_10) env w = (Ok true, w1))
    as Hrun1 by (vm_compute; reflexivity).
  assert (execute gzip_stub (config 3 30) (init noon_march_10) env w1 = (Ok true, w2))
    as Hrun2 by (vm_compute; reflexivity).
  assert (∀ c, minus_days (now env) (keep_local_days (config 3 30)) = Some c →
               stamp_lt (midnight (dt_date noon_march_10)) c = false) as Hkeep
    by (intros c [= <-]; vm_compute; reflexivity).
  destruct (successful_runs_leave_one_artifact gzip_stub (config 3 30)
              noon_march_10 noon_march_10 env env w w1 w2
              eq_refl eq_refl ltac:(cbn; lia) eq_refl Hkeep Hkeep Hrun1 Hrun2)
    as (out1 & err1 & out2 & err2 & _ & Hd2 & _ & _ & _ & _ & Hl & Hr & _ & Hdom).
  injection Hd2 as <- _.
  split; [exact Hl |]. split; [exact Hr | exact Hdom].
Defined.

(** C5 as stated fails: with keep_local_days = 0 the run returns [True],
    and its own sweep has removed the compressed file of the day, so the
    run leaves no local file. *)
Lemma successful_run_without_local_file :
  let w := stores [] [] in
  let r := execute gzip_stub (config 0 30) (init noon_march_10)
             (fair noon_march_10) w in
  r.1 = Ok true
  ∧ local r.2 !! "shop_20240310.sql.gz" = None
  ∧ local r.2 = ∅
  ∧ is_Some (remote r.2 !! "mysql-backups/shop_20240310.sql.gz").
Proof.
  intros w r.
  split; [vm_compute; reflexivity |].
  split; [vm_compute; reflexivity |].
  split; [vm_compute; reflexivity | vm_compute; eauto].
Qed.

End Properties.

(** ** Further facts about names *)
Module NameFacts.
Import Text TextFacts Calendar CalendarFacts Effects Script Policy ScriptFacts.

Lemma startswith_app (p s : string) : startswith p (p +:+ s) = true.
Proof.
  induction p as [|x p IH]; rewrite ?append_nil, ?append_cons; simpl.
  - by destruct s.
  - by rewrite Ascii.eqb_refl.
Qed.

(** Cutting a path at its last slash keeps a tail that holds no slash. *)
Lemma after_last_from_keeps_tail (c : ascii) (a u cur : string) :
  contains c u = false → (∃ x, cur = x +:+ u) →
  ∃ x, after_last_from c (a +:+ u) cur = x +:+ u.
Proof.
  intros Hu. revert cur.
  induction a as [|y a IH]; intros cur Hcur; rewrite ?append_nil, ?append_cons.
  - by rewrite after_last_from_absent.
  - simpl. destruct (Ascii.eqb y c); apply IH; [by exists a | done].
Qed.

Lemma path_name_keeps_tail (a u : string) :
  contains "/" u = false → ∃ x, path_name (a +:+ u) = x +:+ u.
Proof.
  intros Hu. apply after_last_from_keeps_tail; [done | by exists a].
Qed.

Lemma artifact_tail_no_slash (d : date) :
  contains "/" ("_" +:+ strftime_Ymd d +:+ ".sql.gz") = false.
Proof. rewrite !contains_app, strftime_Ymd_no_sep by done. done. Qed.

(** The final component of a path to an artifact is an artifact name of
    the same date. *)
Lemma path_name_artifact (a database : string) (d : date) :
  ∃ x, path_name (a +:+ artifact_name database d) = artifact_name x d.
Proof.
  unfold artifact_name. rewrite <- append_assoc.
  apply path_name_keeps_tail, artifact_tail_no_slash.
Qed.

End NameFacts.

(** ** Further facts about the steps *)
Module StepFacts.
Import Text TextFacts Calendar CalendarFacts Effects EffectFacts Script Policy
  ScriptFacts NameFacts Frames.

Lemma take_skip (n : nat) (s : string) : take n s +:+ skip n s = s.
Proof.
  revert s. induction n as [|n IH]; intros [|x s]; try done.
  simpl. rewrite append_cons. by rewrite IH.
Qed.

Lemma endswith_inv (s suf : string) :
  endswith s suf = true → ∃ x, s = x +:+ suf.
Proof.
  unfold endswith. intros [_ H%String.eqb_eq]%andb_true_iff.
  remember (String.length s - String.length suf) as n eqn:Hn. clear Hn.
  exists (take n s). rewrite <- H. by rewrite take_skip.
Qed.

Lemma last_char (a b : string) (c c' : ascii) :
  a +:+ String c "" = b +:+ String c' "" → c = c'.
Proof.
  revert b. induction a as [|x a IH]; intros [|y b];
    rewrite ?append_nil, ?append_cons; intros H.
  - by injection H.
  - injection H as _ H. destruct b; discriminate H.
  - injection H as _ H. destruct a; discriminate H.
  - injection H as _ H. by eapply IH.
Qed.

(** The raw dump file is not among the names the local sweep lists. *)
Lemma dump_file_not_sql_gz (CONFIG : Config) (self : BackupManager) :
  endswith (dump_file_name CONFIG self) ".sql.gz" = false.
Proof.
  destruct (endswith _ _) eqn:H; [| done].
  apply endswith_inv in H as [x H]. unfold dump_file_name in H.
  rewrite <- !append_assoc in H.
  change ".sql" with (".sq" +:+ "l") in H.
  change ".sql.gz" with (".sql.g" +:+ "z") in H.
  rewrite <- !append_assoc in H. by apply last_char in H.
Qed.

Section Local.
Variable env : Env.
Variable c : stamp.

Abbreviation local_round :=
  (fun f =>
     file_date ← parse_file_date f;
     if stamp_lt file_date c
     then try_except
            (unlink env f ;; logger (InfoLocalDeleted f))
            (fun e => logger (ErrorLocalDeleteFailed e))
     else mret ()).

(** One round of the local sweep, whatever its outcome: the bucket is
    untouched, and the directory is as before or lacks the file at
    hand, which then was due. *)
Lemma local_round_frame (f : string) (w : world) :
  remote (local_round f w).2 = remote w
  ∧ (local (local_round f w).2 = local w
     ∨ (local (local_round f w).2 = delete f (local w)
        ∧ expired c f = true)).
Proof.
  unfold parse_file_date, expired, file_date.
  unfold try_except, mbind, M_bind, mret, M_ret, unlink, logger, raise.
  destruct (strptime_Ymd (file_date_str f)) as [d|]; cbn; [| split; [done | by left]].
  destruct (stamp_lt (midnight d) c); cbn; [| split; [done | by left]].
  destruct (unlink_fails env f); cbn; [split; [done | by left] |].
  destruct (local w !! f); cbn; [| split; [done | by left]].
  split; [done | by right].
Qed.

Lemma local_loop_frame (names : list string) (w : world) :
  remote (for_each local_round names w).2 = remote w
  ∧ ∀ f, local (for_each local_round names w).2 !! f = local w !! f
         ∨ (local (for_each local_round names w).2 !! f = None
            ∧ f ∈ names ∧ expired c f = true).
Proof.
  revert w. induction names as [|g names IH]; intros w.
  - split; [done | by left].
  - rewrite for_each_cons, bind_eq.
    destruct (local_round_frame g w) as [Hr Hl]. cbv beta in *.
    destruct ((parse_file_date g ≫= _) w) as [[[]|e] w1]; cbn in Hr, Hl; cbn.
    + destruct (IH w1) as [Hr1 Hl1]. split; [congruence |].
      intros f. destruct (Hl1 f) as [Hf|(Hf & Hin & He)].
      * rewrite Hf. destruct Hl as [->|[-> He]]; [by left |].
        destruct (decide (f = g)) as [->|Hne].
        -- right. rewrite lookup_delete_eq. split; [done |].
           split; [by left | done].
        -- left. by rewrite lookup_delete_ne.
      * right. split; [done |]. split; [by right | done].
    + split; [done |]. intros f.
      destruct Hl as [->|[-> He]]; [by left |].
      destruct (decide (f = g)) as [->|Hne].
      * right. rewrite lookup_delete_eq. split; [done |].
        split; [by left | done].
      * left. by rewrite lookup_delete_ne.
Qed.

(** A listed name that does not parse ends the loop with the
    [ValueError] of the first such name. *)
Lemma local_loop_unparsed (names : list string) (w : world) :
  NoDup names → (∀ f, f ∈ names → is_Some (local w !! f)) →
  (∃ f, f ∈ names ∧ file_date f = None) →
  ∃ g w', g ∈ names ∧ file_date g = None
          ∧ for_each local_round names w
            = (Raise (ValueError (file_date_str g)), w').
Proof.
  revert w. induction names as [|f names IH]; intros w Hnd Hin (g & Hg & Hd).
  { by apply elem_of_nil in Hg. }
  apply NoDup_cons in Hnd as [Hf Hnd]. rewrite for_each_cons.
  destruct (file_date f) as [d|] eqn:Hfd.
  - erewrite bind_Ok; [| apply local_body_ok; [by rewrite Hfd | apply Hin; by left]].
    apply elem_of_cons in Hg as [->|Hg]; [congruence |].
    destruct (IH (mkWorld (if local_removed env c f then delete f (local w)
                           else local w)
                    (remote w) (log w ++ local_entries env c f)
                    (trace w ++ local_calls env c f)) Hnd)
      as (h & w' & Hh & Hhd & Hrun).
    + intros k Hk. cbn.
      destruct (local_removed env c f); [| apply Hin; by right].
      rewrite lookup_delete_ne; [apply Hin; by right |]. by intros ->.
    + by exists g.
    + exists h, w'. split; [by right | done].
  - exists f, w. split; [by left |]. split; [done |].
    erewrite bind_Raise; [done | by apply local_body_unparsed].
Qed.

End Local.

(** *** Steps that leave the bucket alone *)

Lemma keeps_remote_ret {A : Type} (a : A) : keeps_remote (mret a).
Proof. by intros w. Qed.

Lemma keeps_remote_raise {A : Type} (e : exn) : keeps_remote (@raise A e).
Proof. by intros w. Qed.

Lemma keeps_remote_bind {A B : Type} (m : M A) (f : A → M B) :
  keeps_remote m → (∀ a, keeps_remote (f a)) → keeps_remote (m ≫= f).
Proof.
  intros Hm Hf w. rewrite bind_eq. specialize (Hm w).
  destruct (m w) as [[a|e] w1]; cbn in *; [| done].
  by rewrite Hf.
Qed.

Lemma keeps_remote_try_except {A : Type} (body : M A) (handler : exn → M A) :
  keeps_remote body → (∀ e, keeps_remote (handler e)) →
  keeps_remote (try_except body handler).
Proof.
  intros Hm Hf w. unfold try_except. specialize (Hm w).
  destruct (body w) as [[a|e] w1]; cbn in *; [done |].
  by rewrite Hf.
Qed.

Lemma keeps_remote_logger (entry : log_entry) : keeps_remote (logger entry).
Proof. by intros w. Qed.

Lemma keeps_remote_emit (ev : event) : keeps_remote (emit ev).
Proof. by intros w. Qed.

Lemma keeps_remote_read_local (name : string) : keeps_remote (read_local name).
Proof. intros w. unfold read_local. by destruct (local w !! name). Qed.

Lemma keeps_remote_write_local (name : string) (data : bytes) :
  keeps_remote (write_local name data).
Proof. by intros w. Qed.

Lemma keeps_remote_exists_local (name : string) : keeps_remote (exists_local name).
Proof. by intros w. Qed.

Lemma keeps_remote_unlink (env : Env) (name : string) :
  keeps_remote (unlink env name).
Proof.
  intros w. unfold unlink. destruct (unlink_fails env name); [done |].
  by destruct (local w !! name).
Qed.

Create HintDb bucket.
#[export] Hint Resolve keeps_remote_ret keeps_remote_raise keeps_remote_bind
  keeps_remote_try_except keeps_remote_logger keeps_remote_emit
  keeps_remote_read_local keeps_remote_write_local keeps_remote_exists_local
  keeps_remote_unlink : bucket.

Lemma keeps_remote_run_mysqldump (gzip_compress : bytes → bytes)
    (CONFIG : Config) (self : BackupManager) (env : Env) :
  keeps_remote (run_mysqldump gzip_compress CONFIG self env).
Proof.
  unfold run_mysqldump, open_dump_file, subprocess_run, compress.
  apply keeps_remote_try_except.
  - repeat (apply keeps_remote_bind; [| intros ?]);
      repeat case_match; auto 10 with bucket.
  - intros e. repeat (apply keeps_remote_bind; [| intros ?]);
      repeat case_match; auto with bucket.
Qed.

Lemma keeps_remote_clean_local_backups (CONFIG : Config) (env : Env) :
  keeps_remote (clean_local_backups CONFIG env).
Proof.
  intros w. unfold clean_local_backups, cutoff.
  destruct (minus_days _ _) as [c|]; [| done].
  rewrite bind_eq. cbn [mret M_ret]. rewrite bind_eq. cbn [glob_sql_gz].
  by destruct (local_loop_frame env c (sql_gz_files (local w))
                 (mkWorld (local w) (remote w) (log w)
                    (trace w ++ [EvGlob "*.sql.gz"]))) as [-> _].
Qed.

End StepFacts.

(** ** Further properties of the script *)
Module Further.
Import Text TextFacts Calendar CalendarFacts Effects EffectFacts Script Policy
  ScriptFacts RunFacts NameFacts StepFacts Samples Frames.

(** X1. What a run writes, the sweeps read back.  For a clock that shows
    a date with a four-digit year, the compressed file of the run ends in
    [.sql.gz] and the local sweep reads the date of the run off its name;
    the key the upload uses starts with the prefix, ends in [.sql.gz], and
    the remote sweep reads the same date off it.  This holds for every
    database name and every prefix. *)
Theorem artifact_read_back_by_sweeps (CONFIG : Config) (clock : datetime) :
  valid_date (dt_date clock) = true → (1000 ≤ year (dt_date clock))%Z →
  let gz_file := gz_file_name CONFIG (init clock) in
  let key := oss_prefix CONFIG +:+ path_name gz_file in
  endswith gz_file ".sql.gz" = true
  ∧ file_date gz_file = Some (dt_date clock)
  ∧ startswith (oss_prefix CONFIG) key = true
  ∧ endswith key ".sql.gz" = true
  ∧ file_date (path_name key) = Some (dt_date clock).
Proof.
  intros Hv Hy gz_file key. subst gz_file key.
  rewrite gz_file_name_init.
  split; [apply endswith_artifact_name |].
  split; [by apply file_date_artifact_name |].
  split; [apply startswith_app |].
  destruct (path_name_artifact "" (mysql_database CONFIG) (dt_date clock))
    as [x Hx].
  rewrite append_nil in Hx. rewrite Hx.
  split.
  - unfold artifact_name. rewrite <- !append_assoc. apply endswith_app.
  - destruct (path_name_artifact (oss_prefix CONFIG) x (dt_date clock))
      as [y Hy'].
    rewrite Hy'. by apply file_date_artifact_name.
Qed.

Lemma artifact_read_back_by_sweeps_witness :
  file_date (gz_file_name (config 3 30) (init noon_march_10)) = Some march_10
  ∧ file_date (path_name ("mysql-backups/"
                          +:+ path_name (gz_file_name (config 3 30)
                                           (init noon_march_10))))
    = Some march_10.
Proof.
  destruct (artifact_read_back_by_sweeps (config 3 30) noon_march_10 eq_refl
              ltac:(cbn; lia)) as (_ & Hl & _ & _ & Hr).
  split; [exact Hl | exact Hr].
Defined.

(** X2. Whatever happens in the backup step, the raw dump file of the day
    is not in the directory afterwards, provided its unlink does not fail:
    after a success, after a failed dump or compression, and also when the
    file could not even be opened for writing, in which case a raw file
    left by an earlier run is removed. *)
Theorem backup_step_leaves_no_raw_dump (gzip_compress : bytes → bytes)
    (CONFIG : Config) (self : BackupManager) (env : Env) (w : world) :
  unlink_fails env (dump_file_name CONFIG self) = false →
  local (run_mysqldump gzip_compress CONFIG self env w).2
    !! dump_file_name CONFIG self = None.
Proof.
  intros Hu.
  pose proof (gz_file_name_ne CONFIG self) as Hne.
  unfold run_mysqldump, open_dump_file, subprocess_run, compress.
  unfold try_except, mbind, M_bind, mret, M_ret, emit, write_local, read_local,
    exists_local, unlink, logger, raise.
  destruct (local w !! dump_file_name CONFIG self) eqn:Hraw;
    destruct (dump env) as [| |rc out err]; cbn;
    try destruct (rc =? 0)%Z; try destruct (gzip env); cbn;
    repeat (progress (rewrite ?Hu, ?Hraw, ?lookup_insert_eq,
                        ?(lookup_insert_ne _ _ _ _ Hne); cbn));
    solve [done | apply lookup_delete_eq].
Qed.

Lemma backup_step_leaves_no_raw_dump_witness :
  let env := with_dump DumpCannotOpen (fair noon_march_10) in
  let w := stores ["shop_20240310.sql"] [] in
  is_Some (local w !! "shop_20240310.sql")
  ∧ local (run_mysqldump gzip_stub (config 3 30) (init noon_march_10) env w).2
      !! "shop_20240310.sql" = None.
Proof.
  intros env w. split; [vm_compute; eauto |].
  exact (backup_step_leaves_no_raw_dump gzip_stub (config 3 30)
           (init noon_march_10) env w eq_refl).
Defined.

(** X3. [execute] never lets an exception out, and it never fails
    silently: it returns [True] with [InfoDone] as the last log entry, or
    [False] with, as the last log entry, the critical entry that carries
    the exception that stopped the run. *)
Theorem execute_logs_every_failure (gzip_compress : bytes → bytes)
    (CONFIG : Config) (self : BackupManager) (env : Env) (w : world) :
  ∃ success w', execute gzip_compress CONFIG self env w = (Ok success, w')
    ∧ if success then last (log w') = Some InfoDone
      else ∃ e, last (log w') = Some (CriticalAborted e)
                ∧ (steps gzip_compress CONFIG self env w).1 = Raise e.
Proof.
  rewrite execute_eq.
  destruct (steps gzip_compress CONFIG self env w) as [[[]|e] w1]; cbn.
  - eexists true, _. split; [done |]. cbn. apply last_snoc.
  - eexists false, _. split; [done |]. exists e. cbn.
    split; [apply last_snoc | done].
Qed.

(** X4. One listed name whose date does not parse stops the local sweep:
    when the cutoff exists and the directory holds a [*.sql.gz] name that
    [strptime] rejects, [clean_local_backups] raises the [ValueError] of
    such a name.  The bucket is untouched, and files are only removed,
    never changed, up to that point. *)
Theorem local_sweep_stops_at_unparsed (CONFIG : Config) (env : Env)
    (w : world) (c : stamp) (f : string) :
  minus_days (now env) (keep_local_days CONFIG) = Some c →
  f ∈ sql_gz_files (local w) → file_date f = None →
  ∃ g w', g ∈ sql_gz_files (local w) ∧ file_date g = None
    ∧ clean_local_backups CONFIG env w
      = (Raise (ValueError (file_date_str g)), w')
    ∧ remote w' = remote w
    ∧ ∀ name, local w' !! name = local w !! name ∨ local w' !! name = None.
Proof.
  intros Hc Hf Hd.
  destruct (local_loop_unparsed env c (sql_gz_files (local w))
              (mkWorld (local w) (remote w) (log w)
                 (trace w ++ [EvGlob "*.sql.gz"])))
    as (g & w' & Hg & Hgd & Hrun).
  { apply NoDup_sql_gz_files. }
  { intros k Hk. by apply sql_gz_files_spec in Hk as [? _]. }
  { by exists f. }
  exists g, w'. split; [done |]. split; [done |].
  assert (clean_local_backups CONFIG env w
          = (Raise (ValueError (file_date_str g)), w')) as Heq.
  { unfold clean_local_backups, cutoff. rewrite Hc.
    rewrite bind_eq. cbn [mret M_ret]. rewrite bind_eq. cbn [glob_sql_gz].
    exact Hrun. }
  split; [exact Heq |].
  pose proof (keeps_remote_clean_local_backups CONFIG env w) as Hr.
  rewrite Heq in Hr. split; [exact Hr |].
  intros name.
  destruct (local_loop_frame env c (sql_gz_files (local w))
              (mkWorld (local w) (remote w) (log w)
                 (trace w ++ [EvGlob "*.sql.gz"]))) as [_ Hl].
  rewrite Hrun in Hl. destruct (Hl name) as [?|[? _]]; [by left | by right].
Qed.

Lemma local_sweep_stops_at_unparsed_witness :
  let w := stores ["notes.sql.gz"; "shop_20240309.sql.gz"] [] in
  ∃ g w', file_date g = None
    ∧ clean_local_backups (config 3 30) (fair noon_march_10) w
      = (Raise (ValueError (file_date_str g)), w').
Proof.
  intros w.
  destruct (local_sweep_stops_at_unparsed (config 3 30) (fair noon_march_10) w
              (738952, 43200000000)%Z "notes.sql.gz")
    as (g & w' & _ & Hd & Hrun & _).
  - vm_compute. reflexivity.
  - apply sql_gz_files_spec. vm_compute. eauto.
  - vm_compute. reflexivity.
  - exists g, w'. split; [exact Hd | exact Hrun].
Defined.

(** X5. A stray file fails every run.  When the directory holds a
    [*.sql.gz] name whose date does not parse, a run in which the dump,
    the compression and the upload all succeed still returns [False]: the
    object of the day is in the bucket, and the last log entry is the
    critical entry with the [ValueError] of an unparsed name. *)
Theorem stray_name_fails_run (gzip_compress : bytes → bytes)
    (CONFIG : Config) (self : BackupManager) (env : Env) (w : world)
    (out : bytes) (err : string) (c : stamp) (f : string) :
  dump env = DumpExit 0 out err → gzip env = GzipOk → put env = PutOk →
  unlink_fails env (dump_file_name CONFIG self) = false →
  minus_days (now env) (keep_local_days CONFIG) = Some c →
  f ∈ sql_gz_files (local w) → file_date f = None →
  let gz_file := gz_file_name CONFIG self in
  ∃ g w', execute gzip_compress CONFIG self env w = (Ok false, w')
    ∧ file_date g = None
    ∧ last (log w') = Some (CriticalAborted (ValueError (file_date_str g)))
    ∧ remote w' = <[oss_prefix CONFIG +:+ path_name gz_file
                    := gzip_compress out]> (remote w).
Proof.
  intros Hd Hg Hp Hu Hc Hf Hfd gz_file.
  rewrite execute_eq. unfold steps.
  erewrite bind_Ok; [| by eapply run_mysqldump_ok].
  erewrite bind_Ok; [| eapply upload_to_oss_ok; [done | apply lookup_insert_eq]].
  set (w2 := mkWorld _ _ _ _).
  destruct (local_sweep_stops_at_unparsed CONFIG env w2 c f Hc)
    as (g & w' & _ & Hgd & Hrun & Hr & _); [| done |].
  { apply sql_gz_files_spec in Hf as (Hs & He & Hsl).
    apply sql_gz_files_spec. split; [| done]. subst w2. cbn.
    destruct (decide (f = gz_file)) as [->|Hne].
    - rewrite lookup_insert_eq. eauto.
    - rewrite lookup_insert_ne by done. rewrite lookup_delete_ne; [done |].
      intros <-. by rewrite dump_file_not_sql_gz in He. }
  rewrite Hrun. eexists g, _. split; [reflexivity |]. split; [done |]. cbn.
  split; [apply last_snoc | by rewrite Hr].
Qed.

Lemma stray_name_fails_run_witness :
  let w := stores ["notes.sql.gz"] [] in
  ∃ g w', execute gzip_stub (config 3 30) (init noon_march_10)
            (fair noon_march_10) w = (Ok false, w')
    ∧ last (log w') = Some (CriticalAborted (ValueError (file_date_str g)))
    ∧ remote w' = <[ "mysql-backups/shop_20240310.sql.gz" := gzip_stub sql_text ]> ∅.
Proof.
  intros w.
  destruct (stray_name_fails_run gzip_stub (config 3 30) (init noon_march_10)
              (fair noon_march_10) w sql_text "" (738952, 43200000000)%Z
              "notes.sql.gz")
    as (g & w' & Hrun & _ & Hlog & Hr); try reflexivity.
  - apply sql_gz_files_spec. vm_compute. eauto.
  - exists g, w'. split; [exact Hrun |]. split; [exact Hlog |].
    exact (eq_trans Hr eq_refl).
Defined.

(** X6. The local sweep contains the failure of one unlink.  When the
    sweep runs to its end, every listed file that is due and whose unlink
    fails stays in the directory and is logged as an error, and every
    listed file that is due and whose unlink works is gone and logged as
    deleted, whatever happened to the other files. *)
Theorem local_sweep_isolates_unlink_failures (CONFIG : Config) (env : Env)
    (w : world) (c : stamp) :
  minus_days (now env) (keep_local_days CONFIG) = Some c →
  Forall (fun f => is_Some (file_date f)) (sql_gz_files (local w)) →
  ∃ w', clean_local_backups CONFIG env w = (Ok (), w')
    ∧ ∀ f, f ∈ sql_gz_files (local w) → expired c f = true →
        (unlink_fails env f = true →
         local w' !! f = local w !! f
         ∧ ErrorLocalDeleteFailed (OSError f) ∈ new_entries w w')
        ∧ (unlink_fails env f = false →
           local w' !! f = None ∧ InfoLocalDeleted f ∈ new_entries w w').
Proof.
  intros Hc Hp. eexists. split; [by apply clean_local_backups_ok |]. cbn.
  intros f Hf He. unfold new_entries. cbn. rewrite drop_app_length.
  split; intros Hu.
  - split.
    + rewrite lookup_sweep_map, decide_False; [done |].
      intros [_ H]. unfold local_removed in H. by rewrite He, Hu in H.
    + apply elem_of_flat_map. exists f. split; [done |].
      unfold local_entries. rewrite He, Hu. by left.
  - split.
    + rewrite lookup_sweep_map, decide_True; [done |].
      split; [done |]. unfold local_removed. by rewrite He, Hu.
    + apply elem_of_flat_map. exists f. split; [done |].
      unfold local_entries. rewrite He, Hu. by left.
Qed.

Lemma local_sweep_isolates_unlink_failures_witness :
  let env := mkEnv noon_march_10 (DumpExit 0 sql_text "") GzipOk PutOk
               (String.eqb "shop_20240101.sql.gz") (fun _ => false) in
  let w := stores ["shop_20240101.sql.gz"; "shop_20240102.sql.gz"] [] in
  ∃ w', clean_local_backups (config 3 30) env w = (Ok (), w')
    ∧ is_Some (local w' !! "shop_20240101.sql.gz")
    ∧ ErrorLocalDeleteFailed (OSError "shop_20240101.sql.gz") ∈ new_entries w w'
    ∧ local w' !! "shop_20240102.sql.gz" = None.
Proof.
  intros env w.
  destruct (local_sweep_isolates_unlink_failures (config 3 30) env w
              (738952, 43200000000)%Z) as (w' & Hrun & Hall).
  - vm_compute. reflexivity.
  - assert (sql_gz_files (local w)
            = ["shop_20240101.sql.gz"; "shop_20240102.sql.gz"]) as ->
      by (vm_compute; reflexivity).
    repeat constructor; eexists; vm_compute; reflexivity.
  - exists w'. split; [exact Hrun |].
    assert ("shop_20240101.sql.gz" ∈ sql_gz_files (local w)) as H1
      by (apply sql_gz_files_spec; vm_compute; eauto).
    assert ("shop_20240102.sql.gz" ∈ sql_gz_files (local w)) as H2
      by (apply sql_gz_files_spec; vm_compute; eauto).
    assert (expired (738952, 43200000000)%Z "shop_20240101.sql.gz" = true) as E1
      by (vm_compute; reflexivity).
    assert (expired (738952, 43200000000)%Z "shop_20240102.sql.gz" = true) as E2
      by (vm_compute; reflexivity).
    destruct (Hall _ H1 E1) as [Hfail _]. destruct (Hall _ H2 E2) as [_ Hok].
    destruct (Hfail eq_refl) as [Heq Hlog]. destruct (Hok eq_refl) as [Hgone _].
    split; [rewrite Heq; vm_compute; eauto |]. split; [exact Hlog | exact Hgone].
Defined.

(** X7. What the remote sweep removes.  When its cutoff exists, the sweep
    returns and leaves the directory alone; an object is missing
    afterwards exactly when it was missing before or when its key starts
    with the prefix, ends in [.sql.gz], carries a date before the cutoff
    and its deletion did not fail.  An object that is still there is
    unchanged, and a deletion that failed is logged for its key. *)
Theorem remote_sweep_removes_exactly_due (CONFIG : Config) (env : Env)
    (w : world) (c : stamp) :
  minus_days (now env) (keep_oss_days CONFIG) = Some c →
  ∃ w', clean_oss_backups CONFIG env w = (Ok (), w')
    ∧ local w' = local w
    ∧ ∀ key,
        (remote w' !! key = None
         ↔ remote w !! key = None
           ∨ (startswith (oss_prefix CONFIG) key = true
              ∧ oss_expired c key = true ∧ delete_fails env key = false))
        ∧ (is_Some (remote w' !! key) → remote w' !! key = remote w !! key)
        ∧ (is_Some (remote w !! key) →
           startswith (oss_prefix CONFIG) key = true →
           oss_expired c key = true → delete_fails env key = true →
           ErrorOssFailed key (OssError key) ∈ new_entries w w').
Proof.
  intros Hc. eexists. split; [by apply clean_oss_backups_ok |]. cbn.
  split; [done |]. intros key. rewrite lookup_sweep_map.
  assert (oss_removed env c key = true
          ↔ oss_expired c key = true ∧ delete_fails env key = false) as Hrm.
  { unfold oss_removed. by rewrite andb_true_iff, negb_true_iff. }
  split; [| split].
  - destruct (decide _) as [[Hin Hr]|Hn].
    + split; [intros _ | done]. right.
      apply keys_under_spec in Hin as [_ Hpre]. apply Hrm in Hr as [? ?].
      done.
    + split; [by left |]. intros [H|(Hpre & He & Hf)]; [done |].
      destruct (remote w !! key) eqn:Hk; [| done].
      destruct Hn. split; [apply keys_under_spec; eauto | by apply Hrm].
  - destruct (decide _); [by intros [? ?] | done].
  - intros Hk Hpre He Hf. unfold new_entries. cbn. rewrite drop_app_length.
    apply elem_of_flat_map. exists key.
    split; [by apply keys_under_spec |].
    unfold oss_entries. unfold oss_expired, expired in He.
    apply andb_true_iff in He as [Hend He]. rewrite Hend. cbn.
    destruct (file_date (path_name key)) as [d|]; [| done].
    rewrite He, Hf. by left.
Qed.

Lemma remote_sweep_removes_exactly_due_witness :
  let w := stores [] ["mysql-backups/shop_20240101.sql.gz";
                      "other/shop_20240101.sql.gz"] in
  ∃ w', clean_oss_backups (config 3 30) (fair noon_march_10) w = (Ok (), w')
    ∧ remote w' !! "mysql-backups/shop_20240101.sql.gz" = None
    ∧ remote w' !! "other/shop_20240101.sql.gz"
      = remote w !! "other/shop_20240101.sql.gz".
Proof.
  intros w.
  destruct (remote_sweep_removes_exactly_due (config 3 30) (fair noon_march_10)
              w (738925, 43200000000)%Z) as (w' & Hrun & _ & Hall);
    [vm_compute; reflexivity |].
  exists w'. split; [exact Hrun |]. split.
  - apply (Hall "mysql-backups/shop_20240101.sql.gz"). right.
    vm_compute. repeat split; reflexivity.
  - apply (Hall "other/shop_20240101.sql.gz").
    destruct (remote w' !! "other/shop_20240101.sql.gz") eqn:Hk; [eauto |].
    apply (Hall "other/shop_20240101.sql.gz") in Hk
      as [Hk|(Hpre & _)]; [vm_compute in Hk | vm_compute in Hpre]; discriminate.
Defined.

(** X8. A longer local retention never deletes more: when the sweep runs
    to its end under two settings of keep_local_days, on the same
    directory and in the same outside world, every file that is gone
    under the larger setting is gone under the smaller one. *)
Theorem longer_retention_deletes_less (CONFIG1 CONFIG2 : Config) (env : Env)
    (w w1 w2 : world) :
  (keep_local_days CONFIG1 ≤ keep_local_days CONFIG2)%Z →
  clean_local_backups CONFIG1 env w = (Ok (), w1) →
  clean_local_backups CONFIG2 env w = (Ok (), w2) →
  ∀ name, local w2 !! name = None → local w1 !! name = None.
Proof.
  intros Hle H1 H2 name.
  destruct (clean_local_backups_Ok_inv _ _ _ _ H1) as (c1 & Hc1 & Hp).
  destruct (clean_local_backups_Ok_inv _ _ _ _ H2) as (c2 & Hc2 & _).
  rewrite (clean_local_backups_ok _ _ c1) in H1 by done.
  rewrite (clean_local_backups_ok _ _ c2) in H2 by done.
  injection H1 as <-. injection H2 as <-. cbn.
  rewrite !lookup_sweep_map.
  destruct (decide (name ∈ _ ∧ local_removed env c2 name = true)) as [[Hin Hr]|Hn].
  - intros _. rewrite decide_True; [done |]. split; [done |].
    unfold local_removed, expired in *.
    apply andb_true_iff in Hr as [He ->]. rewrite andb_true_r.
    destruct (file_date name) as [d|]; [| done].
    unfold minus_days in Hc1, Hc2.
    repeat case_match; try discriminate.
    injection Hc1 as <-. injection Hc2 as <-.
    unfold stamp_lt, midnight in *. cbn in *.
    apply orb_true_iff in He. apply orb_true_iff.
    rewrite andb_true_iff, !Z.ltb_lt, Z.eqb_eq in *. lia.
  - intros Hk. destruct (decide _); [done | exact Hk].
Qed.

Lemma longer_retention_deletes_less_witness :
  let w := stores ["shop_20240301.sql.gz"; "shop_20240308.sql.gz"] [] in
  let w1 := (clean_local_backups (config 1 30) (fair noon_march_10) w).2 in
  let w2 := (clean_local_backups (config 7 30) (fair noon_march_10) w).2 in
  local w2 !! "shop_20240301.sql.gz" = None
  ∧ local w1 !! "shop_20240301.sql.gz" = None.
Proof.
  intros w w1 w2.
  assert (local w2 !! "shop_20240301.sql.gz" = None) as H2
    by (vm_compute; reflexivity).
  split; [exact H2 |].
  apply (longer_retention_deletes_less (config 1 30) (config 7 30)
           (fair noon_march_10) w w1 w2); [cbn; lia | | | exact H2];
    vm_compute; reflexivity.
Defined.

(** X9. The local sweep is idempotent as well.  Let a first sweep return,
    and let a second one follow on the directory it left, with the same
    clock reading, in an outside world where an unlink that failed the
    first time fails again.  The second sweep returns, leaves the
    directory and the bucket as it found them, and logs no deletion. *)
Theorem local_sweep_idempotent (CONFIG : Config) (env1 env2 : Env)
    (w w1 : world) :
  now env2 = now env1 →
  (∀ name, unlink_fails env1 name = true → unlink_fails env2 name = true) →
  clean_local_backups CONFIG env1 w = (Ok (), w1) →
  ∃ w2, clean_local_backups CONFIG env2 w1 = (Ok (), w2)
    ∧ local w2 = local w1
    ∧ remote w2 = remote w1
    ∧ ∀ name, InfoLocalDeleted name ∉ new_entries w1 w2.
Proof.
  intros Hnow Hfails Hfirst.
  destruct (clean_local_backups_Ok_inv _ _ _ _ Hfirst) as (c & Hc & Hp).
  rewrite (clean_local_backups_ok _ _ c) in Hfirst by done.
  injection Hfirst as <-.
  set (names := sql_gz_files (local w)) in *.
  set (kept := sweep_map (local_removed env1 c) names (local w)).
  assert (∀ f, f ∈ sql_gz_files kept →
            f ∈ names ∧ local_removed env1 c f = false) as Hleft.
  { intros f (Hsome & Hend & Hsl)%sql_gz_files_spec. subst kept.
    rewrite lookup_sweep_map in Hsome.
    destruct (decide _) as [|Hn]; [by destruct Hsome |].
    assert (f ∈ names) as Hin by (by apply sql_gz_files_spec).
    split; [done |].
    destruct (local_removed env1 c f) eqn:Hrm; [| done]. by destruct Hn. }
  assert (∀ f, f ∈ sql_gz_files kept → local_removed env2 c f = false) as Hleft2.
  { intros f Hf. destruct (Hleft f Hf) as [_ Hrm].
    unfold local_removed in *. destruct (expired c f); [| done]. cbn in *.
    apply negb_false_iff in Hrm. by rewrite (Hfails f Hrm). }
  eexists. split.
  { apply clean_local_backups_ok; [by rewrite Hnow |]. cbn. fold kept.
    apply Forall_forall. intros f Hf. destruct (Hleft f Hf) as [Hin _].
    by eapply Forall_forall in Hp. }
  cbn. fold kept. split; [by apply sweep_map_none |]. split; [done |].
  intros name. unfold new_entries. cbn. rewrite drop_app_length.
  intros (f & Hf & He)%elem_of_flat_map.
  specialize (Hleft2 f Hf). unfold local_entries, local_removed in *.
  destruct (expired c f); [| by apply elem_of_nil in He]. cbn in *.
  apply negb_false_iff in Hleft2. rewrite Hleft2 in He.
  apply elem_of_cons in He as [He|He]; [done | by apply elem_of_nil in He].
Qed.

Lemma local_sweep_idempotent_witness :
  let env := fair noon_march_10 in
  let w := stores ["shop_20240101.sql.gz"; "shop_20240309.sql.gz"] [] in
  let w1 := (clean_local_backups (config 3 30) env w).2 in
  local w1 !! "shop_20240101.sql.gz" = None
  ∧ ∃ w2, clean_local_backups (config 3 30) env w1 = (Ok (), w2)
      ∧ local w2 = local w1.
Proof.
  intros env w w1. split; [vm_compute; reflexivity |].
  assert (clean_local_backups (config 3 30) env w = (Ok (), w1)) as Hfirst
    by (vm_compute; reflexivity).
  destruct (local_sweep_idempotent (config 3 30) env env w w1 eq_refl
              (fun name H => H) Hfirst) as (w2 & Hsecond & Hl & _).
  exists w2. split; [exact Hsecond | exact Hl].
Defined.

(** X10. Neither sweep deletes what is recent.  A file whose name carries
    a date later than the day of the clock minus keep_local_days is left
    in the directory by the local sweep, whatever the time of day and
    whatever the outcome of the sweep; an object whose key carries a date
    later than the day of the clock minus keep_oss_days is left in the
    bucket by the remote sweep. *)
Theorem sweeps_keep_recent (CONFIG : Config) (env : Env) (w : world)
    (name : string) (d : date) :
  let today := toordinal (dt_date (now env)) in
  (file_date name = Some d → (today - keep_local_days CONFIG < toordinal d)%Z →
   local (clean_local_backups CONFIG env w).2 !! name = local w !! name)
  ∧ (file_date (path_name name) = Some d →
     (today - keep_oss_days CONFIG < toordinal d)%Z →
     remote (clean_oss_backups CONFIG env w).2 !! name = remote w !! name).
Proof.
  intros today. subst today.
  assert (∀ k c f, minus_days (now env) k = Some c → file_date f = Some d →
            (toordinal (dt_date (now env)) - k < toordinal d)%Z →
            expired c f = false) as Hrecent.
  { intros k c f Hc Hd Hlt. unfold expired. rewrite Hd.
    unfold minus_days in Hc. case_match; [| discriminate].
    injection Hc as <-. unfold stamp_lt, midnight. cbn.
    apply orb_false_iff. split; [apply Z.ltb_ge; lia |].
    apply andb_false_iff. left. apply Z.eqb_neq. lia. }
  split; intros Hd Hlt.
  - unfold clean_local_backups, cutoff.
    destruct (minus_days (now env) (keep_local_days CONFIG)) as [c|] eqn:Hc;
      [| done].
    rewrite bind_eq. cbn [mret M_ret]. rewrite bind_eq. cbn [glob_sql_gz].
    destruct (local_loop_frame env c (sql_gz_files (local w))
                (mkWorld (local w) (remote w) (log w)
                   (trace w ++ [EvGlob "*.sql.gz"]))) as [_ Hl].
    destruct (Hl name) as [H|(_ & _ & He)]; [exact H |].
    by rewrite (Hrecent _ _ _ Hc Hd Hlt) in He.
  - destruct (minus_days (now env) (keep_oss_days CONFIG)) as [c|] eqn:Hc.
    + rewrite (clean_oss_backups_ok _ _ c) by done. cbn.
      rewrite lookup_sweep_map, decide_False; [done |].
      intros [_ H]. unfold oss_removed, oss_expired in H.
      rewrite (Hrecent _ _ _ Hc Hd Hlt) in H.
      by rewrite andb_false_r in H.
    + by rewrite clean_oss_backups_overflow.
Qed.

(** X11. A retention setting that takes the cutoff out of the years
    1..9999 makes the local sweep raise [OverflowError] before it lists
    anything, so no run returns [True] under it, whatever the dump and the
    upload do. *)
Theorem cutoff_overflow_fails_run (gzip_compress : bytes → bytes)
    (CONFIG : Config) (self : BackupManager) (env : Env) (w : world) :
  let o := (toordinal (dt_date (now env)) - keep_local_days CONFIG)%Z in
  (o < 1 ∨ MAXORDINAL < o)%Z →
  clean_local_backups CONFIG env w = (Raise OverflowError, w)
  ∧ ∃ w', execute gzip_compress CONFIG self env w = (Ok false, w').
Proof.
  intros o Ho.
  assert (minus_days (now env) (keep_local_days CONFIG) = None) as Hc.
  { unfold minus_days. fold o.
    destruct (1 <=? o)%Z eqn:H1; [| done].
    destruct (o <=? MAXORDINAL)%Z eqn:H2; [| done].
    apply Z.leb_le in H1, H2. lia. }
  split.
  - unfold clean_local_backups, cutoff. by rewrite Hc.
  - rewrite execute_eq.
    destruct (steps gzip_compress CONFIG self env w) as [[[]|e] w3] eqn:Hs;
      [| by eexists].
    apply steps_Ok_inv in Hs as (file & w1 & w2 & _ & _ & Hclean).
    apply clean_local_backups_Ok_inv in Hclean as (c & Hc' & _). congruence.
Qed.

Lemma cutoff_overflow_fails_run_witness :
  clean_local_backups (config 1000000 30) (fair noon_march_10) (stores [] [])
  = (Raise OverflowError, stores [] [])
  ∧ ∃ w', execute gzip_stub (config 1000000 30) (init noon_march_10)
            (fair noon_march_10) (stores [] []) = (Ok false, w').
Proof.
  apply (cutoff_overflow_fails_run gzip_stub (config 1000000 30)
           (init noon_march_10) (fair noon_march_10) (stores [] [])).
  left. vm_compute. reflexivity.
Defined.

(** X12. Whatever its outcome, the local sweep leaves the bucket alone and
    only removes files: a name of the directory is bound afterwards as
    before, or it is gone, and then it was listed by the sweep and its
    date is before the cutoff. *)
Theorem local_sweep_only_removes_due (CONFIG : Config) (env : Env) (w : world) :
  let w' := (clean_local_backups CONFIG env w).2 in
  remote w' = remote w
  ∧ ∀ name, local w' !! name = local w !! name
            ∨ (local w' !! name = None
               ∧ name ∈ sql_gz_files (local w)
               ∧ ∃ c, minus_days (now env) (keep_local_days CONFIG) = Some c
                      ∧ expired c name = true).
Proof.
  intros w'. subst w'.
  split; [apply keeps_remote_clean_local_backups |].
  intros name. unfold clean_local_backups, cutoff.
  destruct (minus_days (now env) (keep_local_days CONFIG)) as [c|] eqn:Hc;
    [| by left].
  rewrite bind_eq. cbn [mret M_ret]. rewrite bind_eq. cbn [glob_sql_gz].
  destruct (local_loop_frame env c (sql_gz_files (local w))
              (mkWorld (local w) (remote w) (log w)
                 (trace w ++ [EvGlob "*.sql.gz"]))) as [_ Hl].
  destruct (Hl name) as [H|(H & Hin & He)]; [by left |].
  right. split; [done |]. split; [done |]. by exists c.
Qed.

(** X13. A run writes at most one object: after [execute], whatever its
    outcome, the bucket is as before, or it is the bucket of before with
    one binding set, the key being the prefix followed by the name of the
    compressed file of the day. *)
Theorem run_writes_at_most_one_object (gzip_compress : bytes → bytes)
    (CONFIG : Config) (self : BackupManager) (env : Env) (w : world) :
  let w' := (execute gzip_compress CONFIG self env w).2 in
  let key := oss_prefix CONFIG +:+ path_name (gz_file_name CONFIG self) in
  remote w' = remote w ∨ ∃ data, remote w' = <[key := data]> (remote w).
Proof.
  intros w' key. subst w'.
  assert (∀ r, remote (match r with
                       | (Ok _, w1) => (Ok true, (logger InfoDone w1).2)
                       | (Raise e, w1) => (Ok false, (logger (CriticalAborted e) w1).2)
                       end).2 = remote (r : result () * world).2) as Hlog.
  { by intros [[[]|e] w1]. }
  rewrite execute_eq, Hlog. unfold steps. rewrite bind_eq.
  pose proof (keeps_remote_run_mysqldump gzip_compress CONFIG self env w) as Hr.
  destruct (run_mysqldump gzip_compress CONFIG self env w) as [[file|e] w1] eqn:Hrun;
    cbn in Hr; [| by left].
  destruct (run_mysqldump_Ok_inv _ _ _ _ _ _ _ Hrun) as (out & err & Hd & Hg & Hu).
  rewrite (run_mysqldump_ok _ _ _ _ _ _ _ Hd Hg Hu) in Hrun.
  injection Hrun as <- <-. rewrite bind_eq.
  assert (put env = PutOk ∨ put env ≠ PutOk) as [Hp|Hp]
    by (destruct (put env); [by left | by right..]).
  - erewrite upload_to_oss_ok; [| done | apply lookup_insert_eq].
    cbv beta iota. right. eexists.
    rewrite (keeps_remote_clean_local_backups CONFIG env). reflexivity.
  - edestruct upload_to_oss_failed as (e & entries & ->); [exact Hp |].
    cbn. by left.
Qed.

(** X14. A required variable that is unset, or set to the empty string,
    stops the script before it touches anything: the exit status is 1 and
    the directory, the bucket and the calls are as before; when the module
    and its configuration loaded, the one entry logged lists that variable
    among the missing ones, and when they did not (for instance an integer
    setting that [int] rejects) nothing is logged at all.  When every
    required variable is set to a non-empty value, the module and its
    configuration load and the constructor returns, the script runs [execute] on the configuration it
    loaded and exits with 0 or 1 as [execute] returns [True] or [False];
    when the constructor fails instead, it exits with 1 and [execute] is
    not run: the stores and the log are as before. *)
Theorem required_variables_checked_first (gzip_compress : bytes → bytes)
    (int_of_str : string → option Z) (path_text : string → string)
    (environ : gmap string string) (loading : load_outcome)
    (startup : init_outcome) (clock : datetime) (env : Env) (w : world) :
  let r := main int_of_str path_text gzip_compress environ loading startup
             clock env w in
  (∀ var, var ∈ required_envs →
     environ !! var = None ∨ environ !! var = Some "" →
     r.1 = 1%Z ∧ local r.2 = local w ∧ remote r.2 = remote w
     ∧ trace r.2 = trace w
     ∧ (∀ CONFIG, loading = LoadOk →
          load_config int_of_str path_text environ = Ok CONFIG →
          ∃ missing, log r.2 = log w ++ [ErrorMissingEnv missing]
                     ∧ var ∈ missing)
     ∧ (loading = LoadError
        ∨ (∃ e, load_config int_of_str path_text environ = Raise e) →
        r.2 = w))
  ∧ ((∀ var, var ∈ required_envs →
        ∃ value, environ !! var = Some value ∧ value ≠ "") →
     ∀ CONFIG, loading = LoadOk →
       load_config int_of_str path_text environ = Ok CONFIG →
       let w0 := (emit (EvMkdir (local_backup_dir CONFIG)) w).2 in
       (startup = InitOk →
        ∃ success w',
          execute gzip_compress CONFIG (init clock) env w0 = (Ok success, w')
          ∧ r = ((if success then 0 else 1)%Z, w'))
       ∧ (startup ≠ InitOk → r = (1%Z, w0))).
Proof.
  intros r. subst r. unfold main. split.
  - intros var Hvar Hunset.
    assert (var ∈ List.filter (unset environ) required_envs) as Hin.
    { apply list_elem_of_In, filter_In. split; [by apply list_elem_of_In |].
      unfold unset. by destruct Hunset as [-> | ->]. }
    destruct loading; [| cbn; repeat split; done].
    destruct (load_config int_of_str path_text environ) as [CONFIG|e].
    + destruct (List.filter (unset environ) required_envs) as [|v missing];
        [by apply elem_of_nil in Hin |].
      cbn. repeat (split; [done |]). split; [| by intros [?|[? ?]]].
      intros ? _ _. by eexists.
    + cbn. repeat split; done.
  - intros Hset CONFIG -> ->.
    assert (List.filter (unset environ) required_envs = []) as ->.
    { destruct (List.filter (unset environ) required_envs) as [|v missing] eqn:Hm;
        [done |].
      assert (In v (List.filter (unset environ) required_envs)) as Hin
        by (rewrite Hm; by left).
      apply filter_In in Hin as [Hv Hu]. apply list_elem_of_In in Hv.
      destruct (Hset v Hv) as (value & Hval & Hne).
      unfold unset in Hu. rewrite Hval in Hu. by destruct value. }
    split.
    + intros ->. rewrite construct_ok.
      destruct (execute_returns gzip_compress CONFIG (init clock) env
                  (emit (EvMkdir (local_backup_dir CONFIG)) w).2)
        as (success & w' & Hrun).
      exists success, w'. split; [exact Hrun |].
      change (mkWorld (local w) (remote w) (log w)
                (trace w ++ [EvMkdir (local_backup_dir CONFIG)]))
        with (emit (EvMkdir (local_backup_dir CONFIG)) w).2.
      by rewrite Hrun.
    + intros Hinit.
      by destruct (construct_failed startup CONFIG clock w Hinit) as [e ->].
Qed.

End Further.
